(** * PRDBench evaluation agent: sandboxed session tools

    A shallow embedding of the safety validators, the interactive shell
    tools, the judge harness (all of
    [EvalAgent/code_eval_agent/mcp_tools.py]) and the WebSocket output
    relay ([EvalAgent/code_eval_agent/mcp_servers.py]).

    Conventions of the embedding.
    - A Python [str] is a Rocq [string]; a character stands for the code
      point with the same number (code points below 256).
    - A Python call that may raise returns an [outcome]: [Ok v] for a
      normal return, [Raise e] for an exception that leaves the call.
    - A result dictionary is a [gmap string pyval].
    - What the operating system or a child process does is given to a
      function as an explicit script (an oracle); what the function does
      to the outside world is returned as a list of effects. *)

From Stdlib Require Import ZArith Ascii DecimalString.
From Stdlib Require String.
From stdpp Require Import base option list strings gmap.

Local Open Scope Z_scope.
Local Open Scope stdpp_scope.

(** ** Python values, exceptions and outcomes *)

Inductive pyval : Type :=
  | PyNone
  | PyBool (b : bool)
  | PyInt (z : Z)
  | PyStr (s : string).

Global Instance pyval_eq_dec : EqDecision pyval.
Proof. solve_decision. Defined.

(** The exception classes the embedded code meets.  [KeyboardInterrupt]
    derives from [BaseException] only; every other class derives from
    [Exception]. *)
Inductive exn_class : Type :=
  | ValueError
  | IndexError
  | UnboundLocalError
  | OSError
  | RuntimeError
  | TimeoutExpired      (* subprocess.TimeoutExpired *)
  | TIMEOUT             (* pexpect.TIMEOUT *)
  | EOF                 (* pexpect.EOF *)
  | ExceptionPexpect
  | KeyboardInterrupt.

Global Instance exn_class_eq_dec : EqDecision exn_class.
Proof. solve_decision. Defined.

Record exn : Type := mkExn { exn_cls : exn_class; exn_msg : string }.

Global Instance exn_eq_dec : EqDecision exn.
Proof. solve_decision. Defined.

(** [isinstance(e, Exception)] *)
Definition is_Exception (e : exn) : bool :=
  match exn_cls e with
  | KeyboardInterrupt => false
  | _ => true
  end.

Inductive outcome (A : Type) : Type :=
  | Ok (a : A)
  | Raise (e : exn).
Arguments Ok {A} a.
Arguments Raise {A} e.

Definition obind {A B} (m : outcome A) (k : A -> outcome B) : outcome B :=
  match m with
  | Ok a => k a
  | Raise e => Raise e
  end.

Notation "'let?' x := m 'in' k" := (obind m (fun x => k))
  (at level 10, x name, m at level 100, k at level 200).

(** ** Strings *)

Definition nl : string := String "010"%char "".
Definition slash : ascii := "/"%char.

(** [bool(s)] for a string. *)
Definition truthy (s : string) : bool :=
  match s with
  | "" => false
  | String _ _ => true
  end.

(** [bool(x)] for an [Optional[str]]. *)
Definition truthy_opt (x : option string) : bool :=
  match x with
  | None => false
  | Some s => truthy s
  end.

(** [s.startswith(p)] *)
Fixpoint startswith (p s : string) : bool :=
  match p, s with
  | "", _ => true
  | String _ _, "" => false
  | String a p', String b s' => Ascii.eqb a b && startswith p' s'
  end.

(** [s.endswith(c)] for a one-character suffix [c]. *)
Fixpoint endswith_char (c : ascii) (s : string) : bool :=
  match s with
  | "" => false
  | String a "" => Ascii.eqb a c
  | String _ s' => endswith_char c s'
  end.

(** [needle in hay] *)
Fixpoint contains (needle hay : string) : bool :=
  startswith needle hay ||
  match hay with
  | "" => false
  | String _ hay' => contains needle hay'
  end.

(** [s.split(c)] for a one-character separator [c]. *)
Fixpoint split_char (c : ascii) (s : string) : list string :=
  match s with
  | "" => [""]
  | String a s' =>
      if Ascii.eqb a c then "" :: split_char c s'
      else match split_char c s' with
           | [] => [String a ""]
           | w :: ws => String a w :: ws
           end
  end.

(** [sep.join(l)] *)
Fixpoint join (sep : string) (l : list string) : string :=
  match l with
  | [] => ""
  | [x] => x
  | x :: l' => x +:+ sep +:+ join sep l'
  end.

(** [c.isspace()] on code points below 256. *)
Definition isspace (c : ascii) : bool :=
  let n := N_of_ascii c in
  ((9 <=? n) && (n <=? 13) || (28 <=? n) && (n <=? 32)
   || (n =? 133) || (n =? 160))%N.

(** [s.split()]: the maximal runs of characters that are not white space. *)
Fixpoint split_ws (s : string) : list string :=
  match s with
  | "" => []
  | String a s' =>
      if isspace a then split_ws s'
      else match s' with
           | "" => [String a ""]
           | String b _ =>
               if isspace b then String a "" :: split_ws s'
               else match split_ws s' with
                    | [] => [String a ""]
                    | w :: ws => String a w :: ws
                    end
           end
  end.

(** [str(n)] for a natural number. *)
Definition str_of_nat (n : nat) : string :=
  NilEmpty.string_of_uint (Nat.to_uint n).

(** [str(z)] for an integer. *)
Definition str_of_Z (z : Z) : string :=
  match z with
  | Z0 => "0"
  | Zpos p => str_of_nat (Pos.to_nat p)
  | Zneg p => "-" +:+ str_of_nat (Pos.to_nat p)
  end.

(** [str(v)], as an f-string formats a value. *)
Definition py_str (v : pyval) : string :=
  match v with
  | PyNone => "None"
  | PyBool true => "True"
  | PyBool false => "False"
  | PyInt z => str_of_Z z
  | PyStr s => s
  end.

(** [str(l)] for a list of strings free of quotes and backslashes. *)
Definition str_of_list (l : list string) : string :=
  "[" +:+ join ", " (map (fun s => "'" +:+ s +:+ "'") l) +:+ "]".

(** Lexicographic comparison of lists of strings, [a < b] in Python:
    the first position where the two differ decides, else the shorter
    list is the smaller. *)
Fixpoint list_ltb (a b : list string) : bool :=
  match a, b with
  | [], [] => false
  | [], _ :: _ => true
  | _ :: _, [] => false
  | x :: a', y :: b' =>
      if String.eqb x y then list_ltb a' b' else String.ltb x y
  end.

(** ** [posixpath] *)

(** [os.path.join(a, *p)] *)
Definition join_step (path b : string) : string :=
  if startswith "/" b then b
  else if negb (truthy path) || endswith_char slash path then path +:+ b
  else path +:+ "/" +:+ b.

Definition os_path_join (a : string) (p : list string) : string :=
  fold_left join_step p a.

(** The components [commonpath] keeps: [[c for c in s if c and c != '.']]. *)
Definition keep_component (c : string) : bool :=
  truthy c && negb (String.eqb c ".").

Definition components (path : string) : list string :=
  filter (fun c => keep_component c = true) (split_char slash path).

(** The loop of [commonpath] over [s1] with [s2[i]] read by index. *)
Fixpoint common_loop (s1 s2 : list string) : outcome (list string) :=
  match s1 with
  | [] => Ok []
  | c :: s1' =>
      match s2 with
      | [] => Raise (mkExn IndexError "list index out of range")
      | d :: s2' =>
          if String.eqb c d
          then let? r := common_loop s1' s2' in Ok (c :: r)
          else Ok []
      end
  end.

(** [min([a, b])] and [max([a, b])] on component lists. *)
Definition min2 (a b : list string) : list string :=
  if list_ltb b a then b else a.
Definition max2 (a b : list string) : list string :=
  if list_ltb a b then b else a.

(** [os.path.commonpath([p, q])] *)
Definition commonpath2 (p q : string) : outcome string :=
  let isabs_p := startswith "/" p in
  let isabs_q := startswith "/" q in
  if negb (Bool.eqb isabs_p isabs_q)
  then Raise (mkExn ValueError "Can't mix absolute and relative paths")
  else
    let sp := components p in
    let sq := components q in
    let s1 := min2 sp sq in
    let s2 := max2 sp sq in
    let? common := common_loop s1 s2 in
    Ok ((if isabs_p then "/" else "") +:+ join "/" common).

(** ** Configuration ([config.py]) *)

(** [SANDBOX_MODE = True] *)
Definition SANDBOX_MODE : bool := true.

Definition SAFE_COMMANDS : list string :=
  ["ls"; "pwd"; "echo"; "cat"; "head"; "tail"; "grep"; "find"; "python";
   "python3"; "chmod"; "cd"; "pytest"].

(** ** Path validators *)

Section Validators.
(** [WORKSPACE_DIR] and [ENABLE_PATH_RESTRICTION] are read from the
    environment when [config.py] is loaded. *)
Variable WORKSPACE_DIR : string.
Variable ENABLE_PATH_RESTRICTION : bool.
(** [str(Path(p).resolve())]: it consults the file system, and raises on
    a path the operating system refuses. *)
Variable resolve : string -> outcome string.

(** [[os.path.join(WORKSPACE_DIR, str(i), 'reports') for i in range(1, 51)]] *)
Definition allowed_paths : list string :=
  map (fun i => os_path_join WORKSPACE_DIR [str_of_nat i; "reports"])
      (seq 1 50).

(** [any(os.path.commonpath([file_path, allowed_path]) == allowed_path
        for allowed_path in allowed)] *)
Fixpoint any_commonpath (file_path : string) (allowed : list string)
  : outcome bool :=
  match allowed with
  | [] => Ok false
  | allowed_path :: rest =>
      let? c := commonpath2 file_path allowed_path in
      if String.eqb c allowed_path then Ok true
      else any_commonpath file_path rest
  end.

Definition validate_write_path (file_path : string) : outcome bool :=
  if ENABLE_PATH_RESTRICTION then
    let? hit := any_commonpath file_path allowed_paths in
    if hit then Ok true else Ok false
  else Ok true.

Definition validate_read_file_path (file_path : string) : outcome bool :=
  if startswith "/tmp" file_path then Ok true
  else if negb (startswith "/" file_path) then Ok true
  else if SANDBOX_MODE then
    let? workspace_path := resolve WORKSPACE_DIR in
    let? file_path_resolved := resolve file_path in
    if startswith workspace_path file_path_resolved
       || startswith "/tmp" file_path_resolved
    then Ok true else Ok false
  else Ok true.
End Validators.

(** ** Effects on the outside world *)

Inductive effect : Type :=
  | SubprocessRun (command : string)
  | StepCall (cmd session_id user_input : option string)
  | Spawn (command : string)
  | LogWrite (s : string)
  | Sendline (s : string)
  | Sendcontrol (c : string)
  | Close (force : bool).

Global Instance effect_eq_dec : EqDecision effect.
Proof. solve_decision. Defined.

Abbreviation dict := (gmap string pyval).

(** ** [run_system_command] *)

(** A [subprocess.CompletedProcess]. *)
Record completed : Type :=
  { stdout : string; stderr : string; returncode : Z }.

Definition unsafe_command_error : dict :=
  {[ "error" := PyStr ("The command you executed is not allowed in sandbox mode; Safe command list: "
                        +:+ str_of_list SAFE_COMMANDS) ]}.

Section SystemCommand.
(** What [subprocess.run(command, shell=True, ...)] does. *)
Variable subprocess_run : string -> outcome completed.

Definition run_system_command (command : string)
  : list effect * outcome dict :=
  if SANDBOX_MODE
     && negb (existsb (fun cmd => contains cmd command) SAFE_COMMANDS)
  then ([], Ok unsafe_command_error)
  else
    ([SubprocessRun command],
     match subprocess_run command with
     | Ok result =>
         Ok ({[ "stdout" := PyStr (stdout result);
                "stderr" := PyStr (stderr result);
                "return_code" := PyInt (returncode result) ]} : dict)
     | Raise e =>
         if decide (exn_cls e = TimeoutExpired)
         then Ok ({[ "error" := PyStr "Command execution timeout" ]} : dict)
         else if is_Exception e
         then Ok ({[ "error" := PyStr ("Command execution failed: " +:+ exn_msg e) ]} : dict)
         else Raise e
     end).
End SystemCommand.

(** ** Interactive shell tools *)

(** The dictionary both tools build in their [except Exception] handler;
    [output] is the value each of them stores under ["output"]. *)
Definition step_error_result (e : exn) (session_id : option string)
    (output : pyval) : dict :=
  {[ "error" := PyStr (exn_msg e);
     "session_id" := from_option PyStr PyNone session_id;
     "output" := output;
     "waiting" := PyBool false;
     "finished" := PyBool true ]}.

(** The state kept in [tool_context.python_env_state]: absent, or a
    dictionary from session ids to the interpreter-mode flag. *)
Abbreviation env_state := (option (gmap (option string) bool)).

Record shell_return : Type :=
  { sr_context : env_state;
    sr_effects : list effect;
    sr_result : outcome dict }.

Section InteractiveShell.
(** [code_eval_agent.interative_shell.step(cmd, session_id, user_input)] *)
Variable step : option string -> option string -> option string -> outcome dict.

(** The [try: result = step(...) ... except Exception] block. *)
Definition guarded_step (cmd session_id user_input : option string)
    (session_id_local : option string) (output : pyval) : outcome dict :=
  match step cmd session_id user_input with
  | Ok result => Ok result
  | Raise e =>
      if is_Exception e
      then Ok (step_error_result e session_id_local output)
      else Raise e
  end.

Definition start_interative_shell (cmd : string)
  : list effect * outcome dict :=
  let session_id : option string := None in
  ([StepCall (Some cmd) None None],
   guarded_step (Some cmd) None None session_id
     (from_option PyStr PyNone session_id)).

Definition run_interactive_shell (context : env_state)
    (session_id user_input : option string) : shell_return :=
  (* session_state = getattr(tool_context, 'python_env_state', {}) *)
  let session_state := default ∅ context in
  let session_state :=
    match session_state !! session_id with
    | Some _ => session_state
    | None => <[session_id := false]> session_state
    end in
  (* the stored dictionary is the same object: it sees the insertion *)
  let context1 : env_state :=
    match context with
    | Some _ => Some session_state
    | None => None
    end in
  let is_in_python := default false (session_state !! session_id) in
  let gate : outcome bool :=
    if is_in_python && truthy_opt user_input then
      match split_ws (default "" user_input) with
      | [] => Raise (mkExn IndexError "list index out of range")
      | current_command :: _ =>
          Ok (existsb (fun cmd => contains cmd current_command) SAFE_COMMANDS)
      end
    else Ok true in
  match gate with
  | Raise e => {| sr_context := context1; sr_effects := []; sr_result := Raise e |}
  | Ok false =>
      {| sr_context := context1; sr_effects := [];
         sr_result := Ok unsafe_command_error |}
  | Ok true =>
      let session_state :=
        if truthy_opt user_input && startswith "python" (default "" user_input)
        then <[session_id := true]> session_state
        else if decide (user_input = Some "exit")
        then <[session_id := false]> session_state
        else session_state in
      {| sr_context := Some session_state;
         sr_effects := [StepCall None session_id user_input];
         sr_result := guarded_step None session_id user_input session_id (PyStr "") |}
  end.
End InteractiveShell.

(** The interpreter-mode flag of a session, as the next call reads it. *)
Definition interpreter_mode (context : env_state) (session_id : option string)
  : bool :=
  default false (default ∅ context !! session_id).

(** ** The judge harness *)

(** [s.rstrip('\n')] *)
Fixpoint rstrip_nl (s : string) : string :=
  match s with
  | "" => ""
  | String a s' =>
      match rstrip_nl s' with
      | "" => if Ascii.eqb a "010" then "" else String a ""
      | r => String a r
      end
  end.

(** The characters at which [str.splitlines] ends a line (code points
    below 256). *)
Definition is_linebreak (c : ascii) : bool :=
  let n := N_of_ascii c in
  ((10 <=? n) && (n <=? 13) || (28 <=? n) && (n <=? 30) || (n =? 133))%N.

(** [s.splitlines(True)]; a carriage return directly before a line feed
    ends the line together with it. *)
Fixpoint splitlines_keepends (s : string) : list string :=
  match s with
  | "" => []
  | String a s' =>
      let ends_here :=
        is_linebreak a
        && negb (Ascii.eqb a "013" && startswith nl s') in
      if ends_here then String a "" :: splitlines_keepends s'
      else match splitlines_keepends s' with
           | [] => [String a ""]
           | w :: ws => String a w :: ws
           end
  end.

(** What the spawned child does, as [judge] observes it. *)
Record child_script : Type :=
  { (** the first [sendline] that raises, by position, if any *)
    send_failure : option (nat * exn);
    (** the chunks read by [expect(EOF, timeout=10)] and how it ends *)
    expect_first : list string * outcome unit;
    sendcontrol_failure : option exn;
    (** the same for [expect(EOF, timeout=3)] *)
    expect_second : list string * outcome unit;
    force_close_failure : option exn;
    close_failure : option exn;
    (** [child.exitstatus] after [close()]; [None] for a child ended by a
        signal *)
    exitstatus : option Z;
    (** [child.before] *)
    before : string }.

(** The file system and the process table, as [judge] observes them. *)
Record judge_world : Type :=
  { path_exists : string -> bool;
    (** the lines the input file yields when iterated *)
    open_input : string -> outcome (list string);
    (** [pexpect.spawn(entry_command, ...)] *)
    spawn : string -> outcome child_script }.

(** The state [judge] threads through its body: the effects so far, the
    [result] dictionary, and the local variable [last_output], which is
    unbound until assigned. *)
Record jstate : Type :=
  { effects : list effect;
    result : dict;
    last_output : option string }.

Definition J (A : Type) : Type := jstate -> jstate * outcome A.

Definition jret {A} (a : A) : J A := fun s => (s, Ok a).
Definition jraise {A} (e : exn) : J A := fun s => (s, Raise e).
Definition jbind {A B} (m : J A) (k : A -> J B) : J B :=
  fun s => match m s with
           | (s', Ok a) => k a s'
           | (s', Raise e) => (s', Raise e)
           end.
(** [try: m except: handler] *)
Definition jcatch {A} (m : J A) (handler : exn -> J A) : J A :=
  fun s => match m s with
           | (s', Ok a) => (s', Ok a)
           | (s', Raise e) => handler e s'
           end.

Global Instance J_ret : MRet J := @jret.
Global Instance J_bind : MBind J := fun A B k m => jbind m k.

Definition emit (e : effect) : J unit :=
  fun s => ({| effects := effects s ++ [e]; result := result s;
               last_output := last_output s |}, Ok tt).
Definition set_result (key : string) (v : pyval) : J unit :=
  fun s => ({| effects := effects s; result := <[key := v]> (result s);
               last_output := last_output s |}, Ok tt).
Definition get_result (key : string) : J pyval :=
  fun s => (s, Ok (default PyNone (result s !! key))).
Definition set_last_output (v : string) : J unit :=
  fun s => ({| effects := effects s; result := result s;
               last_output := Some v |}, Ok tt).
(** Reading the local variable [last_output]. *)
Definition get_last_output : J string :=
  fun s => match last_output s with
           | Some v => (s, Ok v)
           | None => (s, Raise (mkExn UnboundLocalError
               "cannot access local variable 'last_output' where it is not associated with a value"))
           end.
(** An operation on the child that raises when the script says so. *)
Definition may_fail (f : option exn) : J unit :=
  match f with
  | Some e => jraise e
  | None => jret tt
  end.

(** [bool(v)] *)
Definition py_truthy (v : pyval) : bool :=
  match v with
  | PyNone => false
  | PyBool b => b
  | PyInt z => negb (z =? 0)
  | PyStr s => truthy s
  end.

(** [CustomLogger.write(data)] *)
Definition CustomLogger_write (data : string) : J unit :=
  fold_right (fun line k => emit (LogWrite ("program: " +:+ line));; k)
             (jret tt) (splitlines_keepends data).

(** [child.expect(pexpect.EOF, timeout=...)]: every chunk read goes
    through [child.logfile_read]. *)
Definition expect_EOF (script : list string * outcome unit) : J unit :=
  fold_right (fun chunk k => CustomLogger_write chunk;; k)
             (fun s => (s, snd script)) (fst script).

Definition send_user_line (c : child_script) (i : nat) (line : string)
  : J unit :=
  emit (LogWrite ("user: " +:+ line +:+ nl));;
  emit (Sendline line);;
  match send_failure c with
  | Some (j, e) => if decide (i = j) then jraise e else jret tt
  | None => jret tt
  end.

(** [for line in input_lines: send_user_line(line.rstrip('\n'))], from
    position [i] on. *)
Fixpoint send_lines (c : child_script) (i : nat) (lines : list string)
  : J unit :=
  match lines with
  | [] => jret tt
  | line :: rest =>
      send_user_line c i (rstrip_nl line);; send_lines c (S i) rest
  end.

Definition force_interrupt_error : string :=
  "The program did not end normally, Ctrl+C was sent to force interrupt.".

Definition exit_status_error (status : option Z) (last : string) : string :=
  "Program exit status code: " +:+ py_str (from_option PyInt PyNone status)
  +:+ nl +:+ "Last output: " +:+ last.

Definition input_missing_error (input_file : string) : string :=
  "Input file " +:+ input_file
  +:+ " does not exist, please check the path and call again.".

(** The body of the outer [try]. *)
Definition judge_try (c : child_script) (input_lines : list string) : J unit :=
  send_lines c 0 input_lines;;
  jcatch (expect_EOF (expect_first c))
    (fun e =>
       if decide (exn_cls e = TIMEOUT) then
         emit (LogWrite ("user: <Ctrl+C>" +:+ nl));;
         emit (Sendcontrol "c");;
         may_fail (sendcontrol_failure c);;
         jcatch (expect_EOF (expect_second c))
           (fun e' =>
              if decide (exn_cls e' = TIMEOUT) then
                emit (Close true);;
                may_fail (force_close_failure c);;
                set_result "error" (PyStr force_interrupt_error)
              else jraise e')
       else jraise e);;
  (* child.close(): pexpect declares close(self, force=True) *)
  emit (Close true);;
  may_fail (close_failure c);;
  (* child.exitstatus == 0 or child.exitstatus == 130
     or 'keyboardInterrupt' in last_output *)
  ok ← (if decide (exitstatus c = Some 0) then jret true
        else if decide (exitstatus c = Some 130) then jret true
        else (last ← get_last_output;
              jret (contains "keyboardInterrupt" last)) : J bool);
  if (ok : bool) then set_result "success" (PyBool true)
  else
    (set_last_output (before c);;
     err ← get_result "error";
     if py_truthy err then jret tt
     else set_result "error"
            (PyStr (exit_status_error (exitstatus c) (before c)))).

(** The outer [try] with its two handlers. *)
Definition judge_guarded (c : child_script) (input_lines : list string)
  : J unit :=
  jcatch (judge_try c input_lines)
    (fun e =>
       if decide (exn_cls e = TIMEOUT)
       then set_result "error" (PyStr "Program execution timed out")
       else if is_Exception e then
         if decide (exn_cls e = KeyboardInterrupt)
         then set_result "success" (PyBool true);;
              set_result "error" PyNone
         else jret tt
       else jraise e).

(** The text of the log file: everything written to it, in order. *)
Definition log_text (tr : list effect) : string :=
  fold_right (fun e acc => match e with
                           | LogWrite s => s +:+ acc
                           | _ => acc
                           end) "" tr.

(** What [open(path, 'r').read()] returns for a file that holds [s]: in
    text mode a carriage return with the line feed after it, and a
    carriage return alone, are read as one line feed. *)
Fixpoint universal_newlines (s : string) : string :=
  match s with
  | "" => ""
  | String a s' =>
      if Ascii.eqb a "013" then
        String "010"
          match s' with
          | "" => ""
          | String b s'' =>
              if Ascii.eqb b "010" then universal_newlines s''
              else universal_newlines s'
          end
      else String a (universal_newlines s')
  end.

Definition judge_initial_result : dict :=
  {[ "success" := PyBool false; "log" := PyStr ""; "error" := PyNone ]}.

(** [judge].  The log file [pexpect_interact.log] is taken to open, for
    writing and for reading, without error; it is written in text mode
    on a POSIX system, where a line feed is stored as it is, and read
    back in text mode. *)
Definition judge (w : judge_world) (context entry_command : string)
    (input_file : option string) : list effect * outcome dict :=
  let result0 := judge_initial_result in
  if truthy_opt input_file && negb (path_exists w (default "" input_file))
  then ([], Ok (<["error" := PyStr (input_missing_error (default "" input_file))]> result0))
  else
    let lines : outcome (list string) :=
      if truthy_opt input_file && path_exists w (default "" input_file)
      then open_input w (default "" input_file)
      else Ok [] in
    match lines with
    | Raise e => ([], Raise e)
    | Ok input_lines =>
        match spawn w entry_command with
        | Raise e => ([Spawn entry_command], Raise e)
        | Ok child =>
            let s0 := {| effects := [Spawn entry_command]; result := result0;
                         last_output := None |} in
            match judge_guarded child input_lines s0 with
            | (s, Raise e) => (effects s, Raise e)
            | (s, Ok _) =>
                (effects s,
                 Ok (<["log" := PyStr (universal_newlines (log_text (effects s)))]>
                       (result s)))
            end
        end
    end.

(** ** The push-style output relay *)

(** One call of [child.read_nonblocking(size=1024, timeout=1)]. *)
Inductive read_result : Type :=
  | Chunk (output : string)
  | ReadTIMEOUT
  | ReadEOF.

(** What the reader task does to the WebSocket. *)
Inductive ws_event : Type :=
  | SendStr (s : string)
  | WsClose.

Global Instance ws_event_eq_dec : EqDecision ws_event.
Proof. solve_decision. Defined.

Inductive reader_status : Type :=
  | ReaderCancelled   (* still in the loop when the script ends *)
  | ReaderReturned.   (* the coroutine has returned *)

(** [read_from_python], run against the results of its successive reads.
    The task is cancelled when the script is used up; sending on the
    WebSocket is taken to succeed. *)
Fixpoint read_from_python (reads : list read_result)
  : list ws_event * reader_status :=
  match reads with
  | [] => ([], ReaderCancelled)
  | Chunk output :: rest =>
      let (sent, st) := read_from_python rest in
      (if truthy output then SendStr output :: sent else sent, st)
  | ReadTIMEOUT :: _ => ([], ReaderReturned)
  | ReadEOF :: _ => ([SendStr "[Python process ended]"; WsClose], ReaderReturned)
  end.

(** The strings forwarded to the listener. *)
Definition forwarded (evs : list ws_event) : list string :=
  omap (fun e => match e with SendStr s => Some s | WsClose => None end) evs.

(** ** [kill_shell_session] *)

Definition terminated_message (session_id : string) : string :=
  "Session " +:+ session_id +:+ " has been terminated".

Section KillSession.
(** The sessions that are alive. *)
Context {registry : Type}.
(** [code_eval_agent.interative_shell.terminate(session_id)] *)
Variable terminate : registry -> string -> registry * outcome unit.

Definition kill_shell_session (sessions : registry) (session_id : string)
  : registry * outcome dict :=
  match terminate sessions session_id with
  | (sessions', Ok _) =>
      (sessions',
       Ok ({[ "message" := PyStr (terminated_message session_id);
              "output" := PyStr (terminated_message session_id) ]} : dict))
  | (sessions', Raise e) =>
      (sessions',
       if is_Exception e
       then Ok ({[ "error" := PyStr (exn_msg e); "output" := PyStr "" ]} : dict)
       else Raise e)
  end.
End KillSession.

(** ** The switch for path restriction ([config.py]) *)

(** [c.lower()] on code points below 256. *)
Definition lower_char (c : ascii) : ascii :=
  let n := N_of_ascii c in
  if ((65 <=? n) && (n <=? 90)
      || (192 <=? n) && (n <=? 222) && negb (n =? 215))%N
  then ascii_of_N (n + 32) else c.

(** [s.lower()] *)
Fixpoint lower (s : string) : string :=
  match s with
  | "" => ""
  | String a s' => String (lower_char a) (lower s')
  end.

(** [os.getenv('ENABLE_PATH_RESTRICTION', 'true').lower() == 'true'], for
    the value of the environment variable, [None] when it is not set. *)
Definition ENABLE_PATH_RESTRICTION_of (env_value : option string) : bool :=
  String.eqb (lower (default "true" env_value)) "true".

(** ** The guards of [write_file] and [delete_file] *)

Definition write_refused : dict :=
  {[ "error" := PyStr "This file is not allowed to be modified! If the src code could not handle the case, you can give 0 as the result. You can not modify the code file and metric files." ]}.

Definition delete_refused : dict :=
  {[ "error" := PyStr "This file is not allowed to be deleted! You can not delete the code file and metric files." ]}.

Section WriteGuards.
Variable WORKSPACE_DIR : string.
Variable ENABLE_PATH_RESTRICTION : bool.

(** The opening of [write_file]: [if not validate_write_path(file_path):
    return {"error": ...}].  [Some d] is the early return of [d], [None]
    the way on to the write itself. *)
Definition write_file_guard (file_path : string) : outcome (option dict) :=
  let? ok := validate_write_path WORKSPACE_DIR ENABLE_PATH_RESTRICTION file_path in
  if ok then Ok None else Ok (Some write_refused).

(** The same opening of [delete_file]. *)
Definition delete_file_guard (file_path : string) : outcome (option dict) :=
  let? ok := validate_write_path WORKSPACE_DIR ENABLE_PATH_RESTRICTION file_path in
  if ok then Ok None else Ok (Some delete_refused).
End WriteGuards.

(** ** Specification-side notions *)

(** A path lies under a directory, as the two are written, when it is
    absolute and the components of the directory are the leading
    components of the path.  A component [..] counts like any other
    here; it is followed in [resolves_under]. *)
Definition lies_under (path dir : string) : Prop :=
  startswith "/" path = true /\ components dir `prefix_of` components path.

(** An absolute path in normal form: a slash followed by its components
    joined by single slashes, as [os.path.abspath] returns it. *)
Definition normalized_absolute (p : string) : Prop :=
  p = "/" +:+ join "/" (components p).

(** [c in s] for a character. *)
Fixpoint has_char (c : ascii) (s : string) : bool :=
  match s with
  | "" => false
  | String a s' => Ascii.eqb a c || has_char c s'
  end.

(** A component as [components] returns them. *)
Definition good_component (c : string) : Prop :=
  keep_component c = true /\ has_char slash c = false.

(** The longest common prefix of two component lists. *)
Fixpoint common_prefix (a b : list string) : list string :=
  match a, b with
  | x :: a', y :: b' => if String.eqb x y then x :: common_prefix a' b' else []
  | _, _ => []
  end.

(** The resolver used in examples: a file system without symbolic links,
    asked about paths that are already canonical. *)
Definition resolve_canonical (p : string) : outcome string := Ok p.

(** The default workspace of [config.py], [BASE_WORKSPACE_DIR]. *)
Definition BASE_WORKSPACE_DIR : string := "/tmp/code_agent_workspace".

(** A command text has a safe fragment when some entry of
    [SAFE_COMMANDS] occurs in it as a substring. *)
Definition has_safe_fragment (text : string) : Prop :=
  exists frag, frag ∈ SAFE_COMMANDS /\
    exists pre post, text = pre +:+ frag +:+ post.

(** A session engine used in examples: every step succeeds with no output
    and the program waiting for input. *)
Definition step_idle (cmd session_id user_input : option string)
  : outcome dict :=
  Ok {[ "session_id" := from_option PyStr PyNone session_id;
        "output" := PyStr "";
        "waiting" := PyBool true;
        "finished" := PyBool false ]}.

(** A session engine used in examples: every step raises. *)
Definition step_broken (cmd session_id user_input : option string)
  : outcome dict :=
  Raise (mkExn RuntimeError "session not found").

(** A [subprocess.run] used in examples: every command exits with 0. *)
Definition subprocess_quiet (command : string) : outcome completed :=
  Ok {| stdout := ""; stderr := ""; returncode := 0 |}.

(** [e] is an instance of [Exception]. *)
Definition is_exception (e : exn) : Prop := is_Exception e = true.

(** The exceptions a child script can raise. *)
Definition outcome_exn {A} (o : outcome A) : list exn :=
  match o with
  | Ok _ => []
  | Raise e => [e]
  end.

Definition script_exceptions (c : child_script) : list exn :=
  from_option (fun p => [snd p]) [] (send_failure c)
  ++ outcome_exn (snd (expect_first c))
  ++ option_list (sendcontrol_failure c)
  ++ outcome_exn (snd (expect_second c))
  ++ option_list (force_close_failure c)
  ++ option_list (close_failure c).

(** A child that prints [output], reaches end of file within the first
    timeout and exits with [status]. *)
Definition child_exits (status : Z) (output : string) : child_script :=
  {| send_failure := None;
     expect_first := ([output], Ok tt);
     sendcontrol_failure := None;
     expect_second := ([], Ok tt);
     force_close_failure := None;
     close_failure := None;
     exitstatus := Some status;
     before := output |}.

(** A world without files in which every command spawns [child]. *)
Definition world_without_files (child : child_script) : judge_world :=
  {| path_exists := fun _ => false;
     open_input := fun _ => Raise (mkExn OSError "No such file or directory");
     spawn := fun _ => Ok child |}.

(** The state of [judge] before the run is classified: no success, no
    [last_output], and no error other than the one of the forced
    interrupt. *)
Definition unclassified (s : jstate) : Prop :=
  result s !! "success" = Some (PyBool false) /\
  last_output s = None /\
  (result s !! "error" = Some PyNone \/
   result s !! "error" = Some (PyStr force_interrupt_error)).

(** [m] keeps a state unclassified and raises only exceptions in [P]. *)
Definition quiet {A} (P : exn -> Prop) (m : J A) : Prop :=
  forall s, unclassified s ->
    unclassified (fst (m s)) /\ forall e, snd (m s) = Raise e -> P e.

(** [m] keeps a state unclassified and ends in an exception of [P]. *)
Definition always_raises {A} (P : exn -> Prop) (m : J A) : Prop :=
  forall s, unclassified s ->
    unclassified (fst (m s)) /\ exists e, snd (m s) = Raise e /\ P e.

(** Modelled from the spec: [terminate] of
    [code_eval_agent/interative_shell.py], the session registry, which is
    not among the sources.  Section 4.3 of the spec: [kill] "forcibly
    terminates and removes the session", and "terminating an
    already-finished or unknown session is not an error for idempotence
    (returns success)"; section 8: "killing a non-existent or
    already-finished session id is idempotent and does not raise".  The
    registry is the set of the ids of the live sessions; a finished
    session has been removed from it. *)
Definition terminate (sessions : gset string) (session_id : string)
  : gset string * outcome unit :=
  (sessions ∖ {[ session_id ]}, Ok tt).

(** A value that reads [true] when case is ignored. *)
Definition reads_true (value : string) : Prop :=
  exists t r u e,
    value = String t (String r (String u (String e ""))) /\
    (t = "t" \/ t = "T")%char /\ (r = "r" \/ r = "R")%char /\
    (u = "u" \/ u = "U")%char /\ (e = "e" \/ e = "E")%char.

(** A registry used in examples: [terminate] knows no session and raises. *)
Definition terminate_failing (sessions : gset string) (session_id : string)
  : gset string * outcome unit :=
  (sessions, Raise (mkExn RuntimeError "session not found")).

(** ** [pathlib] *)

(** A [PurePosixPath]: its root and the parts after the root. *)
Record ppath : Type := { pp_root : string; pp_parts : list string }.

(** [Path(s)]: two leading slashes, and only two, are kept as the root. *)
Definition Path (s : string) : ppath :=
  {| pp_root := if startswith "//" s && negb (startswith "///" s) then "//"
                else if startswith "/" s then "/" else "";
     pp_parts := components s |}.

(** [str(p)] *)
Definition Path_str (p : ppath) : string :=
  match pp_root p, pp_parts p with
  | "", [] => "."
  | _, _ => pp_root p +:+ join "/" (pp_parts p)
  end.

(** [p / s] *)
Definition Path_div (p : ppath) (s : string) : ppath :=
  let q := Path s in
  if truthy (pp_root q) then q
  else {| pp_root := pp_root p; pp_parts := pp_parts p ++ pp_parts q |}.

(** [p.parent] *)
Definition Path_parent (p : ppath) : ppath :=
  {| pp_root := pp_root p; pp_parts := removelast (pp_parts p) |}.

(** ** The file tools *)

(** [MAX_FILE_SIZE = 10 * 1024 * 1024] *)
Definition MAX_FILE_SIZE : Z := 10 * 1024 * 1024.

(** The file system, as the file tools observe it.  A path is given as
    [str] shows it. *)
Record file_system : Type :=
  { fs_exists : string -> outcome bool;           (* Path.exists() *)
    fs_size : string -> outcome Z;                (* Path.stat().st_size *)
    fs_read : string -> outcome string;           (* open(p, 'r').read() *)
    fs_mkdir : string -> option exn;              (* mkdir(parents=True, exist_ok=True) *)
    fs_write : string -> string -> option exn;    (* open(p, 'w').write(content) *)
    fs_unlink : string -> option exn }.           (* Path.unlink() *)

(** What the file tools do to the file system. *)
Inductive fs_effect : Type :=
  | FsRead (path : string)
  | FsMkdir (path : string)
  | FsWrite (path content : string)
  | FsUnlink (path : string).

Global Instance fs_effect_eq_dec : EqDecision fs_effect.
Proof. solve_decision. Defined.

(** [except Exception as e: return {"error": f"<prefix>{str(e)}"}] *)
Definition except_Exception (prefix : string) (r : outcome dict)
  : outcome dict :=
  match r with
  | Ok d => Ok d
  | Raise e =>
      if is_Exception e
      then Ok ({[ "error" := PyStr (prefix +:+ exn_msg e) ]} : dict)
      else Raise e
  end.

Definition read_refused : dict :=
  {[ "error" := PyStr "The file path is not allowed to be read! Please concentrate on the file path in the project directory!" ]}.

Section FileTools.
Variable WORKSPACE_DIR : string.
Variable ENABLE_PATH_RESTRICTION : bool.
Variable resolve : string -> outcome string.
Variable fs : file_system.

Definition read_file (file_path : string) : list fs_effect * outcome dict :=
  match validate_read_file_path WORKSPACE_DIR resolve file_path with
  | Raise e => ([], Raise e)
  | Ok false => ([], Ok read_refused)
  | Ok true =>
      let p := Path_str (Path file_path) in
      let body : list fs_effect * outcome dict :=
        match fs_exists fs p with
        | Raise e => ([], Raise e)
        | Ok false => ([], Ok {[ "error" := PyStr "File does not exist" ]})
        | Ok true =>
            match fs_size fs p with
            | Raise e => ([], Raise e)
            | Ok size =>
                if MAX_FILE_SIZE <? size
                then ([], Ok {[ "error" := PyStr "File is too large" ]})
                else ([FsRead p],
                      let? content := fs_read fs p in
                      Ok {[ "file_path" := PyStr p;
                            "content" := PyStr content;
                            "size" := PyInt (Z.of_nat (String.length content)) ]})
            end
        end in
      (fst body, except_Exception "Failed to read file: " (snd body))
  end.

Definition write_file (file_path content : string)
  : list fs_effect * outcome dict :=
  match validate_write_path WORKSPACE_DIR ENABLE_PATH_RESTRICTION file_path with
  | Raise e => ([], Raise e)
  | Ok false => ([], Ok write_refused)
  | Ok true =>
      let path := Path file_path in
      let p := Path_str path in
      let parent := Path_str (Path_parent path) in
      let body : list fs_effect * outcome dict :=
        match fs_mkdir fs parent with
        | Some e => ([FsMkdir parent], Raise e)
        | None =>
            ([FsMkdir parent; FsWrite p content],
             match fs_write fs p content with
             | Some e => Raise e
             | None =>
                 Ok {[ "file_path" := PyStr p;
                       "status" := PyStr "written";
                       "size" := PyInt (Z.of_nat (String.length content)) ]}
             end)
        end in
      (fst body, except_Exception "Failed to write file: " (snd body))
  end.

Definition delete_file (file_path : string) : list fs_effect * outcome dict :=
  match validate_write_path WORKSPACE_DIR ENABLE_PATH_RESTRICTION file_path with
  | Raise e => ([], Raise e)
  | Ok false => ([], Ok delete_refused)
  | Ok true =>
      let p := Path_str (Path file_path) in
      let body : list fs_effect * outcome dict :=
        match fs_exists fs p with
        | Raise e => ([], Raise e)
        | Ok false => ([], Ok {[ "error" := PyStr "File does not exist" ]})
        | Ok true =>
            ([FsUnlink p],
             match fs_unlink fs p with
             | Some e => Raise e
             | None =>
                 Ok {[ "file_path" := PyStr p; "status" := PyStr "deleted" ]}
             end)
        end in
      (fst body, except_Exception "Failed to delete file: " (snd body))
  end.
End FileTools.

(** A file system used in examples: every file exists, holds [text], and
    every operation succeeds. *)
Definition fs_all (text : string) : file_system :=
  {| fs_exists := fun _ => Ok true;
     fs_size := fun _ => Ok (Z.of_nat (String.length text));
     fs_read := fun _ => Ok text;
     fs_mkdir := fun _ => None;
     fs_write := fun _ _ => None;
     fs_unlink := fun _ => None |}.

(** ** The file-operations server ([mcp_servers.py]) *)

(** [FileOperationsMCP.validate_path]: the path is resolved first, then
    the workspace; the bare [except:] answers [False] to any exception. *)
Definition validate_path (workspace_dir : string)
    (resolve : string -> outcome string) (file_path : string) : bool :=
  match resolve file_path with
  | Raise _ => false
  | Ok file_path_resolved =>
      match resolve workspace_dir with
      | Raise _ => false
      | Ok workspace_path => startswith workspace_path file_path_resolved
      end
  end.

(** A string made of white space only. *)
Fixpoint all_space (s : string) : bool :=
  match s with
  | "" => true
  | String a s' => isspace a && all_space s'
  end.

(** A string without white space. *)
Fixpoint no_space (s : string) : bool :=
  match s with
  | "" => true
  | String a s' => negb (isspace a) && no_space s'
  end.

(** ** [interactive_system_command] *)

(** What the spawned command does, as [interactive_system_command]
    observes it.  [child.expect([pexpect.TIMEOUT, pexpect.EOF], timeout=1)]
    returns on a timeout and at end of file alike, and is taken not to
    raise. *)
Record command_script : Type :=
  { (** the first [sendline] that raises, by position, if any *)
    cs_send_failure : option (nat * exn);
    (** how [child.expect(pexpect.EOF)] ends *)
    cs_expect_EOF : outcome unit;
    (** [child.before] and [child.exitstatus] after it *)
    cs_before : string;
    cs_exitstatus : option Z }.

(** [for inp in inputs: child.expect(...); child.sendline(inp)], from
    position [i] on: the lines sent, and how the loop ends. *)
Fixpoint send_inputs (child : command_script) (i : nat) (inputs : list string)
  : list effect * outcome unit :=
  match inputs with
  | [] => ([], Ok tt)
  | inp :: rest =>
      match cs_send_failure child with
      | Some (j, e) =>
          if decide (i = j) then ([Sendline inp], Raise e)
          else let (sent, r) := send_inputs child (S i) rest in
               (Sendline inp :: sent, r)
      | None =>
          let (sent, r) := send_inputs child (S i) rest in
          (Sendline inp :: sent, r)
      end
  end.

Section InteractiveCommand.
(** [pexpect.spawn(command, cwd=WORKSPACE_DIR, ...)] *)
Variable spawn_command : string -> outcome command_script.

Definition interactive_system_command (command : string)
    (inputs : option (list string)) : list effect * outcome dict :=
  if SANDBOX_MODE
     && negb (existsb (fun cmd => contains cmd command) SAFE_COMMANDS)
  then ([], Ok ({[ "error" := PyStr "Command is not allowed in sandbox mode" ]} : dict))
  else
    let body : list effect * outcome dict :=
      match spawn_command command with
      | Raise e => ([Spawn command], Raise e)
      | Ok child =>
          (* [if inputs:] skips [None] and the empty list alike *)
          let (sent, r) := send_inputs child 0 (default [] inputs) in
          (Spawn command :: sent,
           let? _ := r in
           let? _ := cs_expect_EOF child in
           Ok ({[ "stdout" := PyStr (cs_before child);
                  "stderr" := PyStr "";
                  "return_code" := from_option PyInt PyNone (cs_exitstatus child) ]} : dict))
      end in
    (fst body,
     match snd body with
     | Ok d => Ok d
     | Raise e =>
         if decide (exn_cls e = TIMEOUT)
         then Ok ({[ "error" := PyStr "Command execution timeout" ]} : dict)
         else if is_Exception e
         then Ok ({[ "error" := PyStr ("Interactive command execution failed: " +:+ exn_msg e) ]} : dict)
         else Raise e
     end).
End InteractiveCommand.

(** ** Running Python code *)

(** What running code does to the outside world. *)
Inductive exec_effect : Type :=
  | CreateTemp (name code : string)
  | RunArgs (args : list string)
  | UnlinkTemp (name : string).

Global Instance exec_effect_eq_dec : EqDecision exec_effect.
Proof. solve_decision. Defined.

(** The operating system, as the code runners observe it. *)
Record exec_world : Type :=
  { (** [Path.exists()] before the code is run, and after *)
    exists_before : string -> outcome bool;
    exists_after : string -> outcome bool;
    (** [tempfile.NamedTemporaryFile(mode='w', suffix='.py', delete=False)]
        with the code written to it: the name of the file *)
    make_temp : string -> outcome string;
    (** [subprocess.run([interpreter, temp_file], ...)] *)
    run_args : list string -> outcome completed;
    (** [os.unlink(temp_file)] *)
    unlink_temp : string -> option exn }.

Section ExecutePythonCode.
Variable WORKSPACE_DIR : string.
Variable CURRENT_EXECUTION_ID : string.
Variable os : exec_world.

(** [Path(WORKSPACE_DIR) / CURRENT_EXECUTION_ID / "venv"] *)
Definition venv_path : ppath :=
  Path_div (Path_div (Path WORKSPACE_DIR) CURRENT_EXECUTION_ID) "venv".

(** [str(venv_path / "bin" / "python")] ([os.name] is not ['nt']) *)
Definition venv_python : string :=
  Path_str (Path_div (Path_div venv_path "bin") "python").

(** The interpreter [execute_python_code] chooses. *)
Definition choose_interpreter (use_venv : bool) : outcome string :=
  if use_venv then
    let? venv_exists := exists_before os (Path_str venv_path) in
    if venv_exists then
      let? python_exists := exists_before os (Path_str (Path venv_python)) in
      Ok (if python_exists then venv_python else "python")
    else Ok "python"
  else Ok "python".

Definition execute_python_code (code : string) (use_venv : bool)
  : list exec_effect * outcome dict :=
  let body : list exec_effect * outcome dict :=
    match choose_interpreter use_venv with
    | Raise e => ([], Raise e)
    | Ok python_executable =>
        match make_temp os code with
        | Raise e => ([], Raise e)
        | Ok temp_file =>
            match run_args os [python_executable; temp_file] with
            | Raise e =>
                ([CreateTemp temp_file code;
                  RunArgs [python_executable; temp_file]], Raise e)
            | Ok result =>
                ([CreateTemp temp_file code;
                  RunArgs [python_executable; temp_file];
                  UnlinkTemp temp_file],
                 match unlink_temp os temp_file with
                 | Some e => Raise e
                 | None =>
                     (* use_venv and venv_path.exists() if use_venv else False *)
                     let? used_venv :=
                       if use_venv then exists_after os (Path_str venv_path)
                       else Ok false in
                     Ok ({[ "stdout" := PyStr (stdout result);
                            "stderr" := PyStr (stderr result);
                            "return_code" := PyInt (returncode result);
                            "execution_time" := PyStr "completed";
                            "python_executable" := PyStr python_executable;
                            "used_venv" := PyBool used_venv ]} : dict)
                 end)
            end
        end
    end in
  (fst body,
   match snd body with
   | Ok d => Ok d
   | Raise e =>
       if decide (exn_cls e = TimeoutExpired)
       then Ok ({[ "error" := PyStr "Code execution timeout" ]} : dict)
       else if is_Exception e
       then Ok ({[ "error" := PyStr ("Code execution failed: " +:+ exn_msg e) ]} : dict)
       else Raise e
   end).
End ExecutePythonCode.

(** The body of a request to [/python-interpreter/execute]: a JSON object
    whose fields, when present, have the types the handler expects. *)
Record execute_request : Type :=
  { req_code : option string; req_timeout : option Z }.

Section ExecuteCode.
Variable os : exec_world.
(** [sys.executable] and [datetime.now().isoformat()] *)
Variable sys_executable : string.
Variable now : string.

(** [PythonInterpreterMCP.execute_code]: the effects, and the status and
    the body of the response. *)
Definition execute_code (request : outcome execute_request)
  : list exec_effect * outcome (Z * dict) :=
  let body : list exec_effect * outcome (Z * dict) :=
    match request with
    | Raise e => ([], Raise e)
    | Ok data =>
        let code := default "" (req_code data) in
        match make_temp os code with
        | Raise e => ([], Raise e)
        | Ok temp_file =>
            ([CreateTemp temp_file code;
              RunArgs [sys_executable; temp_file];
              UnlinkTemp temp_file],
             (* try: ... finally: os.unlink(temp_file) *)
             match run_args os [sys_executable; temp_file],
                   unlink_temp os temp_file with
             | _, Some e => Raise e
             | Raise e, None => Raise e
             | Ok result, None =>
                 Ok (200, ({[ "status" := PyStr "success";
                              "stdout" := PyStr (stdout result);
                              "stderr" := PyStr (stderr result);
                              "return_code" := PyInt (returncode result);
                              "execution_time" := PyStr now ]} : dict))
             end)
        end
    end in
  (fst body,
   match snd body with
   | Ok response => Ok response
   | Raise e =>
       if decide (exn_cls e = TimeoutExpired)
       then Ok (408, ({[ "status" := PyStr "error";
                         "error" := PyStr "Code execution timeout" ]} : dict))
       else if is_Exception e
       then Ok (500, ({[ "status" := PyStr "error";
                         "error" := PyStr (exn_msg e) ]} : dict))
       else Raise e
   end).
End ExecuteCode.

(** A command used in examples: it reads its input, prints [output] and
    exits with status 0. *)
Definition command_exits (output : string) : command_script :=
  {| cs_send_failure := None; cs_expect_EOF := Ok tt;
     cs_before := output; cs_exitstatus := Some 0 |}.

(** An operating system used in examples: the virtual environment exists
    but holds no interpreter, and every run times out. *)
Definition os_timing_out : exec_world :=
  {| exists_before := fun p => Ok (negb (endswith_char "n" p));
     exists_after := fun p => Ok true;
     make_temp := fun _ => Ok "/tmp/tmpab12cd.py";
     run_args := fun _ => Raise (mkExn TimeoutExpired "timed out after 30 seconds");
     unlink_temp := fun _ => None |}.

(** The same, with every run completing. *)
Definition os_running : exec_world :=
  {| exists_before := fun p => Ok (negb (endswith_char "n" p));
     exists_after := fun p => Ok true;
     make_temp := fun _ => Ok "/tmp/tmpab12cd.py";
     run_args := fun _ => Ok {| stdout := "42"; stderr := ""; returncode := 0 |};
     unlink_temp := fun _ => None |}.

(** The state of [judge] after more effects. *)
Definition add_effects (s : jstate) (es : list effect) : jstate :=
  {| effects := effects s ++ es; result := result s;
     last_output := last_output s |}.

(** What sending the input lines does: each line is logged, then sent. *)
Definition user_effects (lines : list string) : list effect :=
  concat (map (fun line => [LogWrite ("user: " +:+ rstrip_nl line +:+ nl);
                            Sendline (rstrip_nl line)]) lines).

(** What reading chunks of output does: each line of each chunk is
    logged. *)
Definition program_effects (chunks : list string) : list effect :=
  concat (map (fun chunk => map (fun line => LogWrite ("program: " +:+ line))
                              (splitlines_keepends chunk)) chunks).

(** The texts of a list, one after the other. *)
Definition concat_strings (l : list string) : string :=
  fold_right String.append "" l.

(** ** The workspace root ([config.py]) *)

(** [os.path.isabs(s)] *)
Definition os_path_isabs (s : string) : bool := startswith "/" s.

(** The loop of [os.path.normpath] over the pieces of the path;
    [new_comps] grows and shrinks at its end. *)
Fixpoint normpath_loop (initial_slashes : nat) (new_comps comps : list string)
  : list string :=
  match comps with
  | [] => new_comps
  | comp :: rest =>
      if String.eqb comp "" || String.eqb comp "." then
        normpath_loop initial_slashes new_comps rest
      else if negb (String.eqb comp "..")
              || (initial_slashes =? 0)%nat && bool_decide (new_comps = [])
              || negb (bool_decide (new_comps = []))
                 && String.eqb (List.last new_comps "") ".."
      then normpath_loop initial_slashes (new_comps ++ [comp]) rest
      else if negb (bool_decide (new_comps = []))
      then normpath_loop initial_slashes (removelast new_comps) rest
      else normpath_loop initial_slashes new_comps rest
  end.

(** [sep * n] *)
Fixpoint slashes (n : nat) : string :=
  match n with
  | O => ""
  | S n' => String slash (slashes n')
  end.

(** [os.path.normpath(path)] *)
Definition normpath (path : string) : string :=
  if negb (truthy path) then "."
  else
    let initial_slashes : nat :=
      if startswith "/" path
      then if startswith "//" path && negb (startswith "///" path)
           then 2%nat else 1%nat
      else 0%nat in
    let comps := normpath_loop initial_slashes [] (split_char slash path) in
    let joined := slashes initial_slashes +:+ join "/" comps in
    if truthy joined then joined else ".".

(** [os.path.abspath(path)], with [cwd] what [os.getcwd()] returns. *)
Definition abspath (cwd path : string) : string :=
  normpath (if os_path_isabs path then path else os_path_join cwd [path]).

(** [WORKSPACE_DIR] as [config.py] computes it from the environment
    variable [CODE_AGENT_WORKSPACE_DIR], [None] when it is not set. *)
Definition WORKSPACE_DIR_of (env_value : option string) (cwd : string)
  : string :=
  let workspace_dir := default BASE_WORKSPACE_DIR env_value in
  if negb (os_path_isabs workspace_dir) then abspath cwd workspace_dir
  else workspace_dir.

(** ** The interactive WebSocket handler ([mcp_servers.py]) *)

(** A message received on the WebSocket, by its type. *)
Inductive ws_message : Type :=
  | MsgText (data : string)
  | MsgError
  | MsgOther.

(** What the handler does to the child and to the connection. *)
Inductive handler_effect : Type :=
  | ChildSendline (s : string)
  | CancelReader
  | TerminateChild (force : bool)
  | CloseSocket.

Global Instance handler_effect_eq_dec : EqDecision handler_effect.
Proof. solve_decision. Defined.

(** [async for msg in ws: ...], from position [i] on; the loop ends with
    the messages, at an error message, or when [sendline] raises. *)
Fixpoint forward_messages (send_failure : option (nat * exn)) (i : nat)
    (msgs : list ws_message) : list handler_effect * outcome unit :=
  match msgs with
  | [] => ([], Ok tt)
  | MsgText data :: rest =>
      let failed :=
        match send_failure with
        | Some (j, e) => if decide (i = j) then Some e else None
        | None => None
        end in
      match failed with
      | Some e => ([ChildSendline data], Raise e)
      | None =>
          let (sent, r) := forward_messages send_failure (S i) rest in
          (ChildSendline data :: sent, r)
      end
  | MsgError :: _ => ([], Ok tt)
  | MsgOther :: rest => forward_messages send_failure (S i) rest
  end.

(** [interactive_execute_code], from the start of the message loop on:
    the [finally] block runs on every way out. *)
Definition interactive_execute_code (send_failure : option (nat * exn))
    (msgs : list ws_message) : list handler_effect * outcome unit :=
  let (sent, r) := forward_messages send_failure 0 msgs in
  (sent ++ [CancelReader; TerminateChild true; CloseSocket], r).

(** The texts of the text messages. *)
Definition message_texts (msgs : list ws_message) : list string :=
  omap (fun m => match m with MsgText data => Some data | _ => None end) msgs.


(** ** Paths as the operating system follows them *)

(** [n] times the step [../] to the parent directory. *)
Fixpoint dotdots (n : nat) : string :=
  match n with
  | O => ""
  | S n' => "../" +:+ dotdots n'
  end.

(** [{WORKSPACE_DIR}/{i}/reports], as [validate_write_path] builds it. *)
Definition reports_dir (WORKSPACE_DIR : string) (i : nat) : string :=
  os_path_join WORKSPACE_DIR [str_of_nat i; "reports"].

(** The file that [path] names lies under the directory [dir]: once [.]
    and [..] are followed, as [os.path.normpath] follows them and as the
    operating system does where no symbolic link is involved, the
    components of the directory are the leading components of the
    path. *)
Definition resolves_under (path dir : string) : Prop :=
  lies_under (normpath path) (normpath dir).

(** ** Lines of a text *)

(** The text holds no line break before its end: a line break is its
    last character, or the carriage return of a closing carriage return
    and line feed. *)
Fixpoint one_line (s : string) : bool :=
  match s with
  | "" => true
  | String a s' =>
      if is_linebreak a
      then String.eqb s' "" || Ascii.eqb a "013" && String.eqb s' nl
      else one_line s'
  end.

(** The last character of the text is a line break. *)
Fixpoint ends_at_break (s : string) : bool :=
  match s with
  | "" => false
  | String a "" => is_linebreak a
  | String _ s' => ends_at_break s'
  end.

(** [lines] are the lines of a text, line breaks kept: every piece is
    one line and is not empty, every piece but the last ends at a line
    break, and no carriage return at the end of a piece is parted from a
    line feed that follows it. *)
Fixpoint split_at_breaks (lines : list string) : Prop :=
  match lines with
  | [] => True
  | line :: rest =>
      line <> "" /\ one_line line = true /\
      match rest with
      | [] => True
      | next :: _ =>
          ends_at_break line = true /\
          ~ (endswith_char "013" line = true /\ startswith nl next = true)
      end /\
      split_at_breaks rest
  end.

(** A carriage return and a line feed. *)
Definition crlf : string := String "013"%char nl.

(** A path that is written under the report directory number [i] and
    climbs from there to the root before it goes down to [etc/passwd]:
    with the default root and [i = 7],
    [/tmp/code_agent_workspace/7/reports/../../../../etc/passwd]. *)
Definition escape_path (WORKSPACE_DIR : string) (i : nat) : string :=
  reports_dir WORKSPACE_DIR i +:+ "/"
  +:+ dotdots (length (components WORKSPACE_DIR) + 2) +:+ "etc/passwd".

(** The components of that path. *)
Definition escape_components (WORKSPACE_DIR : string) (i : nat)
  : list string :=
  (components WORKSPACE_DIR ++ [str_of_nat i; "reports"])
  ++ replicate (length (components WORKSPACE_DIR) + 2) ".."
  ++ ["etc"; "passwd"].
(** * Proofs *)

(** ** Strings *)

Lemma app_cons (a : ascii) (s t : string) : String a s +:+ t = String a (s +:+ t).
Proof. reflexivity. Qed.

Lemma app_empty_l (t : string) : "" +:+ t = t.
Proof. reflexivity. Qed.

Lemma app_empty_r (s : string) : s +:+ "" = s.
Proof. induction s as [|a s IH]; [done|]. by rewrite app_cons, IH. Qed.

Lemma app_assoc_s (s t u : string) : (s +:+ t) +:+ u = s +:+ t +:+ u.
Proof. induction s as [|a s IH]; [done|]. by rewrite !app_cons, IH. Qed.

Lemma startswith_app (p r : string) : startswith p (p +:+ r) = true.
Proof.
  induction p as [|a p IH]; [by destruct r|].
  rewrite app_cons. simpl. by rewrite Ascii.eqb_refl.
Qed.

Lemma startswith_spec (p s : string) :
  startswith p s = true <-> exists r, s = p +:+ r.
Proof.
  split.
  - revert s. induction p as [|a p IH]; intros s H.
    + by exists s.
    + destruct s as [|b s]; [done|]. simpl in H.
      apply andb_true_iff in H as [Hab Hps].
      apply Ascii.eqb_eq in Hab as ->.
      destruct (IH _ Hps) as [r ->]. by exists r.
  - intros [r ->]. apply startswith_app.
Qed.

Lemma contains_spec (needle hay : string) :
  contains needle hay = true <->
  exists pre post, hay = pre +:+ needle +:+ post.
Proof.
  split.
  - induction hay as [|b hay IH]; simpl; intros H.
    + apply orb_true_iff in H as [H|H]; [|done].
      apply startswith_spec in H as [r ->]. by exists "", r.
    + apply orb_true_iff in H as [H|H].
      * apply startswith_spec in H as [r ->]. by exists "", r.
      * destruct (IH H) as (pre & post & ->). by exists (String b pre), post.
  - intros (pre & post & ->).
    induction pre as [|a pre IH].
    + rewrite app_empty_l. destruct (needle +:+ post) eqn:E; simpl;
        rewrite <- E, startswith_app; done.
    + rewrite app_cons. simpl. rewrite IH. apply orb_true_r.
Qed.

(** ** Splitting and joining *)

Lemma split_char_cons (c a : ascii) (s : string) :
  split_char c (String a s) =
  if Ascii.eqb a c then "" :: split_char c s
  else match split_char c s with
       | [] => [String a ""]
       | w :: ws => String a w :: ws
       end.
Proof. reflexivity. Qed.

Lemma split_char_nonempty (c : ascii) (s : string) : split_char c s <> [].
Proof.
  induction s as [|a s IH]; [done|]. rewrite split_char_cons.
  destruct (Ascii.eqb a c); [done|]. by destruct (split_char c s).
Qed.

Lemma split_char_free (c : ascii) (s : string) :
  has_char c s = false -> split_char c s = [s].
Proof.
  induction s as [|a s IH]; [done|]. rewrite split_char_cons. simpl.
  intros [Ha Hs]%orb_false_iff. rewrite Ha, (IH Hs). done.
Qed.

Lemma split_char_app_sep (c : ascii) (s t : string) :
  split_char c (s +:+ String c t) = split_char c s ++ split_char c t.
Proof.
  induction s as [|a s IH].
  - rewrite app_empty_l, split_char_cons. by rewrite Ascii.eqb_refl.
  - rewrite app_cons, !split_char_cons, IH.
    destruct (Ascii.eqb a c); [done|].
    pose proof (split_char_nonempty c s).
    by destruct (split_char c s).
Qed.

Lemma split_char_pieces_free (c : ascii) (s : string) :
  Forall (fun x => has_char c x = false) (split_char c s).
Proof.
  induction s as [|a s IH].
  - by constructor.
  - rewrite split_char_cons.
    destruct (Ascii.eqb a c) eqn:E; [by constructor|].
    destruct (split_char c s) as [|w ws]; [constructor; [simpl; by rewrite E|done]|].
    inversion IH; subst. constructor; [simpl; by rewrite E|done].
Qed.

Lemma join_cons2 (sep x y : string) (l : list string) :
  join sep (x :: y :: l) = x +:+ sep +:+ join sep (y :: l).
Proof. reflexivity. Qed.

Lemma join_snoc (sep x : string) (l : list string) :
  l <> [] -> join sep (l ++ [x]) = join sep l +:+ sep +:+ x.
Proof.
  induction l as [|y l IH]; [done|]. intros _.
  destruct l as [|z l]; [done|].
  change ((y :: z :: l) ++ [x]) with (y :: (z :: l) ++ [x]).
  change ((z :: l) ++ [x]) with (z :: (l ++ [x])) at 1.
  rewrite join_cons2. change (z :: l ++ [x]) with ((z :: l) ++ [x]).
  rewrite IH by done. rewrite join_cons2. by rewrite !app_assoc_s.
Qed.

Lemma split_join (l : list string) :
  l <> [] -> Forall (fun x => has_char slash x = false) l ->
  split_char slash (join "/" l) = l.
Proof.
  induction l as [|x l IH]; [done|]. intros _ Hl.
  inversion Hl as [|? ? Hx Hl']; subst.
  destruct l as [|y l]; [by apply split_char_free|].
  rewrite join_cons2.
  change ("/" +:+ join "/" (y :: l)) with (String slash (join "/" (y :: l))).
  rewrite split_char_app_sep, (split_char_free _ _ Hx), IH by done. done.
Qed.

Lemma components_good (p : string) : Forall good_component (components p).
Proof.
  unfold components. apply Forall_forall. intros x Hx.
  apply list_elem_of_filter in Hx as [Hk Hx]. split; [done|].
  pose proof (split_char_pieces_free slash p) as H.
  rewrite Forall_forall in H. by apply H.
Qed.

Lemma components_normal (l : list string) :
  Forall good_component l -> components ("/" +:+ join "/" l) = l.
Proof.
  intros Hl. unfold components.
  change ("/" +:+ join "/" l) with (String slash (join "/" l)).
  rewrite split_char_cons, Ascii.eqb_refl.
  rewrite filter_cons_False by (by cbv).
  destruct l as [|x l]; [done|].
  rewrite split_join; [|done|by eapply Forall_impl; [done|]; intros ? []].
  induction Hl as [|y l' [Hy _] _ IH]; [done|].
  by rewrite filter_cons_True, IH.
Qed.

Lemma components_app_sep (s t : string) :
  components (s +:+ String slash t) = components s ++ components t.
Proof. unfold components. by rewrite split_char_app_sep, filter_app. Qed.

(** ** Ordering of component lists *)

Lemma string_ltb_irrefl (x : string) : String.ltb x x = false.
Proof.
  unfold String.ltb. destruct (String.compare x x) eqn:E; [done| |done].
  pose proof (String.compare_antisym x x) as H. rewrite E in H. done.
Qed.

Lemma string_ltb_asym (x y : string) :
  String.ltb x y = true -> String.ltb y x = false.
Proof.
  unfold String.ltb. rewrite (String.compare_antisym x y).
  by destruct (String.compare y x).
Qed.

Lemma string_ltb_total (x y : string) :
  String.ltb x y = false -> String.ltb y x = false -> x = y.
Proof.
  unfold String.ltb. rewrite (String.compare_antisym x y).
  destruct (String.compare y x) eqn:E; simpl; try done.
  intros _ _. symmetry. by apply String.compare_eq_iff.
Qed.

Lemma list_ltb_irrefl (a : list string) : list_ltb a a = false.
Proof. induction a as [|x a IH]; simpl; [done|]. by rewrite String.eqb_refl. Qed.

Lemma list_ltb_asym (a b : list string) :
  list_ltb a b = true -> list_ltb b a = false.
Proof.
  revert b. induction a as [|x a IH]; intros [|y b]; simpl; try done.
  rewrite (String.eqb_sym y x). destruct (String.eqb x y); [apply IH|].
  apply string_ltb_asym.
Qed.

Lemma list_ltb_total (a b : list string) :
  list_ltb a b = false -> list_ltb b a = false -> a = b.
Proof.
  revert b. induction a as [|x a IH]; intros [|y b]; simpl; try done.
  rewrite (String.eqb_sym y x). destruct (String.eqb_spec x y) as [->|Hne].
  - intros ??. f_equal. by apply IH.
  - intros H1 H2. destruct Hne. by apply string_ltb_total.
Qed.

(** ** [commonpath] *)

Lemma common_prefix_comm (a b : list string) :
  common_prefix a b = common_prefix b a.
Proof.
  revert b. induction a as [|x a IH]; intros [|y b]; simpl; try done.
  rewrite (String.eqb_sym y x). destruct (String.eqb_spec x y) as [->|]; [|done].
  by rewrite IH.
Qed.

Lemma common_prefix_is (a b : list string) :
  common_prefix a b = b <-> b `prefix_of` a.
Proof.
  revert b. induction a as [|x a IH]; intros [|y b]; simpl.
  - done.
  - split; [done|]. intros H. by apply prefix_nil_not in H.
  - split; [intros _; apply prefix_nil|done].
  - destruct (String.eqb_spec x y) as [->|Hne].
    + split.
      * intros [= H]. apply prefix_cons, IH. done.
      * intros H%prefix_cons_inv_2. f_equal. by apply IH.
    + split; [done|]. intros H%prefix_cons_inv_1. done.
Qed.

Lemma common_loop_ok (s1 s2 : list string) :
  list_ltb s2 s1 = false -> common_loop s1 s2 = Ok (common_prefix s1 s2).
Proof.
  revert s2. induction s1 as [|c s1 IH]; intros [|d s2]; simpl; try done.
  rewrite (String.eqb_sym d c). destruct (String.eqb c d); [|done].
  intros H. by rewrite (IH _ H).
Qed.

(** The index [s2[i]] of the loop is always in range: [s1] is the smaller
    list and [s2] the larger. *)
Lemma common_loop_min_max (a b : list string) :
  common_loop (min2 a b) (max2 a b) = Ok (common_prefix a b).
Proof.
  unfold min2, max2.
  destruct (list_ltb b a) eqn:Hba.
  - rewrite (list_ltb_asym _ _ Hba).
    rewrite common_loop_ok by by apply list_ltb_asym.
    by rewrite common_prefix_comm.
  - destruct (list_ltb a b) eqn:Hab.
    + by rewrite common_loop_ok.
    + rewrite common_loop_ok by apply list_ltb_irrefl.
      by rewrite <- (list_ltb_total _ _ Hab Hba).
Qed.

Lemma commonpath2_absolute (p q : string) :
  startswith "/" p = true -> startswith "/" q = true ->
  commonpath2 p q =
  Ok ("/" +:+ join "/" (common_prefix (components p) (components q))).
Proof.
  intros Hp Hq. unfold commonpath2. rewrite Hp, Hq. simpl.
  by rewrite common_loop_min_max.
Qed.

Lemma commonpath2_mixed (p q : string) :
  startswith "/" p = false -> startswith "/" q = true ->
  commonpath2 p q = Raise (mkExn ValueError "Can't mix absolute and relative paths").
Proof. intros Hp Hq. unfold commonpath2. by rewrite Hp, Hq. Qed.

Lemma common_prefix_good (a b : list string) :
  Forall good_component a -> Forall good_component (common_prefix a b).
Proof.
  revert b. induction a as [|x a IH]; intros [|y b] Ha; simpl; try done.
  inversion Ha; subst. destruct (String.eqb x y); [|done].
  constructor; [done|by apply IH].
Qed.

(** The test [commonpath([p, q]) == q] is the test that [q] leads [p]. *)
Lemma commonpath2_is_dir (p q : string) :
  startswith "/" p = true -> normalized_absolute q ->
  exists c, commonpath2 p q = Ok c /\
            (String.eqb c q = true <-> lies_under p q).
Proof.
  intros Hp Hq.
  assert (startswith "/" q = true) as Hq'.
  { rewrite Hq. apply (startswith_app "/"). }
  eexists. split; [by apply commonpath2_absolute|].
  rewrite String.eqb_eq. unfold lies_under.
  rewrite <- common_prefix_is. split.
  - intros H. split; [done|].
    apply (f_equal components) in H.
    rewrite components_normal in H; [done|].
    apply common_prefix_good, components_good.
  - intros [_ H]. rewrite H. by symmetry.
Qed.

(** ** The allowed report directories *)

Lemma endswith_char_cons (c a b : ascii) (s : string) :
  endswith_char c (String a (String b s)) = endswith_char c (String b s).
Proof. reflexivity. Qed.

Lemma endswith_char_app (c : ascii) (s t : string) :
  t <> "" -> endswith_char c (s +:+ t) = endswith_char c t.
Proof.
  intros Ht. induction s as [|a s IH]; [done|].
  rewrite app_cons. destruct (s +:+ t) eqn:E.
  - destruct s; [|done]. by rewrite app_empty_l in E.
  - by rewrite endswith_char_cons.
Qed.

Lemma endswith_char_free (c : ascii) (s : string) :
  has_char c s = false -> endswith_char c s = false.
Proof.
  induction s as [|a s IH]; [done|]. simpl.
  intros [Ha Hs]%orb_false_iff. destruct s; [done|]. by apply IH.
Qed.

Lemma good_component_nonempty (x : string) : good_component x -> x <> "".
Proof. by intros [H _] ->. Qed.

Lemma good_component_relative (x : string) :
  good_component x -> startswith "/" x = false.
Proof.
  intros [_ H]. destruct x as [|a x]; [done|].
  change (startswith "/" (String a x)) with (Ascii.eqb slash a && true).
  change (has_char slash (String a x))
    with (Ascii.eqb a slash || has_char slash x) in H.
  apply orb_false_iff in H as [H _]. by rewrite Ascii.eqb_sym, H.
Qed.

Lemma join_step_normal (cs : list string) (x : string) :
  Forall good_component cs -> good_component x ->
  join_step ("/" +:+ join "/" cs) x = "/" +:+ join "/" (cs ++ [x]).
Proof.
  intros Hcs Hx. unfold join_step.
  rewrite (good_component_relative _ Hx).
  destruct (decide (cs = [])) as [->|Hne]; [done|].
  rewrite join_snoc by done.
  assert (endswith_char slash ("/" +:+ join "/" cs) = false) as ->.
  { destruct (exists_last Hne) as (cs' & y & ->).
    apply Forall_app in Hcs as [_ Hy]. inversion Hy as [|? ? [Hk Hf] _]; subst.
    destruct (decide (cs' = [])) as [->|Hne'].
    - change (join "/" ([] ++ [y])) with y.
      rewrite endswith_char_app by by apply good_component_nonempty.
      by apply endswith_char_free.
    - rewrite join_snoc by done. rewrite <- !app_assoc_s.
      rewrite endswith_char_app by by apply good_component_nonempty.
      by apply endswith_char_free. }
  simpl. by rewrite !app_assoc_s.
Qed.

(** [str(i)] is a good component for every [i] of [range(1, 51)]. *)
Lemma str_of_nat_good (i : nat) :
  i ∈ seq 1 50 -> good_component (str_of_nat i).
Proof.
  intros Hi.
  assert (Forall (fun i => keep_component (str_of_nat i) = true /\
                           has_char slash (str_of_nat i) = false) (seq 1 50)) as H.
  { apply Forall_forall. intros j Hj. apply list_elem_of_In in Hj.
    repeat (destruct Hj as [<-|Hj]; [by vm_compute|]). done. }
  rewrite Forall_forall in H. by apply H.
Qed.

Lemma reports_good : good_component "reports".
Proof. by vm_compute. Qed.

Lemma components_single (x : string) :
  good_component x -> components x = [x].
Proof.
  intros [Hk Hf]. unfold components. rewrite (split_char_free _ _ Hf).
  by rewrite filter_cons_True.
Qed.

Section WritePath.
Variable WORKSPACE_DIR : string.
Hypothesis workspace_normal : normalized_absolute WORKSPACE_DIR.

Lemma workspace_absolute : startswith "/" WORKSPACE_DIR = true.
Proof.
  pose proof workspace_normal as H. unfold normalized_absolute in H.
  rewrite H. apply (startswith_app "/").
Qed.

Lemma allowed_path_normal (i : nat) :
  i ∈ seq 1 50 ->
  os_path_join WORKSPACE_DIR [str_of_nat i; "reports"] =
  "/" +:+ join "/" (components WORKSPACE_DIR ++ [str_of_nat i; "reports"]).
Proof.
  intros Hi. unfold os_path_join. simpl fold_left.
  pose proof workspace_normal as Hn. unfold normalized_absolute in Hn.
  rewrite Hn at 1.
  rewrite join_step_normal by (apply components_good || by apply str_of_nat_good).
  rewrite join_step_normal.
  - by rewrite <- (assoc_L (++)).
  - apply Forall_app. split; [apply components_good|].
    constructor; [by apply str_of_nat_good|done].
  - apply reports_good.
Qed.

Lemma allowed_path_components (i : nat) :
  i ∈ seq 1 50 ->
  components (os_path_join WORKSPACE_DIR [str_of_nat i; "reports"]) =
  components WORKSPACE_DIR ++ [str_of_nat i; "reports"].
Proof.
  intros Hi. rewrite allowed_path_normal by done.
  apply components_normal, Forall_app. split; [apply components_good|].
  constructor; [by apply str_of_nat_good|].
  constructor; [apply reports_good|constructor].
Qed.

Lemma allowed_path_normalized (i : nat) :
  i ∈ seq 1 50 ->
  normalized_absolute (os_path_join WORKSPACE_DIR [str_of_nat i; "reports"]).
Proof.
  intros Hi. unfold normalized_absolute.
  rewrite allowed_path_components by done. by apply allowed_path_normal.
Qed.

End WritePath.

Lemma startswith_app_l (p s t : string) :
  startswith p s = true -> startswith p (s +:+ t) = true.
Proof.
  intros [r ->]%startswith_spec. rewrite app_assoc_s. apply startswith_app.
Qed.

(** ** The command gate *)

Lemma existsb_safe_fragment (text : string) :
  existsb (fun cmd => contains cmd text) SAFE_COMMANDS = true <->
  has_safe_fragment text.
Proof.
  unfold has_safe_fragment. rewrite existsb_exists. split.
  - intros (frag & Hin & Hc). exists frag. split; [by apply list_elem_of_In|].
    by apply contains_spec.
  - intros (frag & Hin & Hc). exists frag. split; [by apply list_elem_of_In|].
    by apply contains_spec.
Qed.

(** C2, counterexample.  In interpreter mode the input [rm -rf python] is
    rejected although the fragment [python] occurs in it: the gate of
    [run_interactive_shell] looks at the first word only. *)
Lemma interpreter_gate_first_word_counterexample :
  contains "python" "rm -rf python" = true /\
  sr_effects (run_interactive_shell step_idle (Some {[ Some "s1" := true ]})
                (Some "s1") (Some "rm -rf python")) = [] /\
  sr_result (run_interactive_shell step_idle (Some {[ Some "s1" := true ]})
               (Some "s1") (Some "rm -rf python")) = Ok unsafe_command_error.
Proof. split; [|split]; reflexivity. Qed.

(** C2, as amended.  [run_system_command] runs a command exactly when a
    fragment of the allow-list occurs in the command text as a substring,
    and answers any other command with the structured error, running
    nothing.  The interpreter-mode gate of [run_interactive_shell], for an
    input with at least one word, passes the input on to the session
    exactly when a fragment of the allow-list occurs in the first word of
    the input as a substring, and answers any other input with the same
    structured error, passing nothing on. *)
Theorem command_gate_fragment_match
    (subprocess_run : string -> outcome completed)
    (step : option string -> option string -> option string -> outcome dict) :
  (forall command,
     (fst (run_system_command subprocess_run command) = [SubprocessRun command]
      <-> has_safe_fragment command) /\
     (run_system_command subprocess_run command = ([], Ok unsafe_command_error)
      <-> ~ has_safe_fragment command))
  /\
  (forall context session_id user_input current_command rest,
     interpreter_mode context session_id = true ->
     split_ws user_input = current_command :: rest ->
     let r := run_interactive_shell step context session_id (Some user_input) in
     (sr_effects r = [StepCall None session_id (Some user_input)]
      <-> has_safe_fragment current_command) /\
     (sr_effects r = [] /\ sr_result r = Ok unsafe_command_error
      <-> ~ has_safe_fragment current_command)).
Proof.
  split.
  - intros command. rewrite <- existsb_safe_fragment.
    unfold run_system_command. cbv [SANDBOX_MODE andb].
    destruct (existsb _ SAFE_COMMANDS); cbv [negb fst].
    + split; [done|]. split; [done|]. by intros [].
    + split; [done|]. split; [by intros ?|done].
  - intros context session_id user_input current_command rest Hmode Hsplit r.
    rewrite <- existsb_safe_fragment. subst r.
    unfold run_interactive_shell.
    unfold interpreter_mode in Hmode.
    destruct (default ∅ context !! session_id) as [b|] eqn:Hlook;
      [|done]. simpl in Hmode. subst b. rewrite Hlook.
    assert (truthy_opt (Some user_input) = true) as ->.
    { destruct user_input; [done|done]. }
    cbn [from_option id andb]. rewrite Hsplit.
    destruct (existsb _ SAFE_COMMANDS); cbv [sr_effects sr_result].
    + split; [done|]. split; [by intros []|done].
    + split; [done|]. done.
Qed.

Lemma command_gate_fragment_match_witness :
  has_safe_fragment "python3" /\
  sr_effects (run_interactive_shell step_idle (Some {[ Some "s1" := true ]})
                (Some "s1") (Some "python3 main.py"))
  = [StepCall None (Some "s1") (Some "python3 main.py")].
Proof.
  assert (interpreter_mode (Some {[ Some "s1" := true ]}) (Some "s1") = true)
    as Hmode by reflexivity.
  assert (split_ws "python3 main.py" = ["python3"; "main.py"]) as Hsplit
    by reflexivity.
  assert (has_safe_fragment "python3") as Hfrag.
  { exists "python3". split; [set_solver|]. by exists "", "". }
  split; [exact Hfrag|].
  exact (proj2 (proj1 (proj2 (command_gate_fragment_match subprocess_quiet step_idle)
                        _ _ _ _ _ Hmode Hsplit)) Hfrag).
Defined.

(** ** Exceptions of the session engine *)

(** C4.  When the session engine raises an exception [e],
    [run_interactive_shell] returns the dictionary with the message of
    [e], the session id, the output [""], waiting false and finished true.
    [start_interative_shell] returns a dictionary whose output is [None],
    the value of its local [session_id], and not [""]. *)
Theorem step_exception_results
    (step : option string -> option string -> option string -> outcome dict)
    (e : exn) :
  is_Exception e = true ->
  (forall context session_id user_input,
     step None session_id user_input = Raise e ->
     let r := run_interactive_shell step context session_id user_input in
     sr_effects r = [StepCall None session_id user_input] ->
     exists d, sr_result r = Ok d /\
       d !! "error" = Some (PyStr (exn_msg e)) /\
       d !! "session_id" = Some (from_option PyStr PyNone session_id) /\
       d !! "output" = Some (PyStr "") /\
       d !! "waiting" = Some (PyBool false) /\
       d !! "finished" = Some (PyBool true))
  /\
  (forall cmd,
     step (Some cmd) None None = Raise e ->
     exists d, snd (start_interative_shell step cmd) = Ok d /\
       d !! "error" = Some (PyStr (exn_msg e)) /\
       d !! "session_id" = Some PyNone /\
       d !! "output" = Some PyNone /\
       d !! "waiting" = Some (PyBool false) /\
       d !! "finished" = Some (PyBool true)).
Proof.
  intros He. split.
  - intros context session_id user_input Hstep r. subst r.
    unfold run_interactive_shell.
    destruct (if _ && _ then _ else _) as [[|]|e'];
      cbv [sr_effects sr_result]; [|done..].
    intros _. unfold guarded_step. rewrite Hstep, He.
    eexists. split; [done|]. by vm_compute.
  - intros cmd Hstep. unfold start_interative_shell, guarded_step.
    cbv [snd]. rewrite Hstep, He. eexists. split; [done|]. by vm_compute.
Qed.

Lemma step_exception_results_witness :
  exists d, snd (start_interative_shell step_broken "bash") = Ok d /\
            d !! "output" = Some PyNone.
Proof.
  destruct (proj2 (step_exception_results step_broken
                     (mkExn RuntimeError "session not found") eq_refl)
              "bash" eq_refl) as (d & Hd & _ & _ & Hout & _).
  exists d. split; [exact Hd|exact Hout].
Defined.

(** ** The interpreter-mode flag *)

Lemma exit_has_no_safe_fragment :
  existsb (fun cmd => contains cmd "exit") SAFE_COMMANDS = false.
Proof. reflexivity. Qed.

(** Closes a goal that reads the flag out of a known dictionary. *)
Ltac read_flag H :=
  cbn [from_option id]; rewrite ?lookup_insert_eq, ?H; done.

(** The flag after a call, for every context and input. *)
Lemma interpreter_mode_after_step
    (step : option string -> option string -> option string -> outcome dict)
    (context : env_state) (session_id user_input : option string) :
  let r := run_interactive_shell step context session_id user_input in
  interpreter_mode (sr_context r) session_id =
    (truthy_opt user_input && startswith "python" (default "" user_input))
    || interpreter_mode context session_id.
Proof.
  intros r. subst r. unfold run_interactive_shell, interpreter_mode.
  set (d := default ∅ context).
  destruct (d !! session_id) as [b|] eqn:Hlook.
  - (* the session is known *)
    rewrite Hlook. cbn [from_option id].
    destruct b.
    + (* interpreter mode *)
      rewrite orb_true_r.
      assert (match context with
              | Some _ => Some d | None => None end = Some d) as Hctx.
      { subst d. destruct context; [done|]. simpl in Hlook.
        by rewrite lookup_empty in Hlook. }
      rewrite Hctx.
      destruct (truthy_opt user_input) eqn:Ht; cbv [andb].
      * destruct user_input as [input|]; [|done]. cbn [from_option id].
        destruct (split_ws input) as [|w ws] eqn:Hsplit; cbv [sr_context];
          [read_flag Hlook|].
        destruct (existsb _ SAFE_COMMANDS) eqn:Hgate; cbv [sr_context];
          [|read_flag Hlook].
        destruct (startswith "python" input); [read_flag Hlook|].
        destruct (decide (Some input = Some "exit")) as [[= ->]|_];
          [|read_flag Hlook].
        injection Hsplit as <- <-.
        by rewrite exit_has_no_safe_fragment in Hgate.
      * cbv [sr_context].
        destruct (decide (user_input = Some "exit")) as [->|_]; [done|].
        read_flag Hlook.
    + (* not in interpreter mode *)
      rewrite orb_false_r. cbn [andb sr_context].
      destruct (truthy_opt user_input && startswith "python" _);
        [read_flag Hlook|].
      destruct (decide (user_input = Some "exit")); read_flag Hlook.
  - (* a session seen for the first time *)
    rewrite lookup_insert_eq. cbn [from_option id andb sr_context].
    rewrite orb_false_r.
    destruct (truthy_opt user_input && startswith "python" _);
      [read_flag Hlook|].
    destruct (decide (user_input = Some "exit")); read_flag Hlook.
Qed.

(** C7.  After a call of [run_interactive_shell] the interpreter-mode
    flag of the session is true when the input starts with [python] or the
    flag was true before the call, and false otherwise: once set, the flag
    is never reset.  In interpreter mode the input [exit] is rejected by
    the command gate before the flag is updated, and the flag stays
    true. *)
Theorem interpreter_mode_never_reset :
  (forall step context session_id user_input,
     interpreter_mode
       (sr_context (run_interactive_shell step context session_id user_input))
       session_id =
     (truthy_opt user_input && startswith "python" (default "" user_input))
     || interpreter_mode context session_id)
  /\ sr_result (run_interactive_shell step_idle (Some {[ Some "s1" := true ]})
                  (Some "s1") (Some "exit")) = Ok unsafe_command_error
  /\ interpreter_mode
       (sr_context (run_interactive_shell step_idle (Some {[ Some "s1" := true ]})
                      (Some "s1") (Some "exit")))
       (Some "s1") = true.
Proof.
  split; [|split; reflexivity].
  intros step context session_id user_input.
  apply interpreter_mode_after_step.
Qed.

(** ** The judge harness *)

Section JudgeInvariant.
Context {P : exn -> Prop}.

Lemma quiet_ret {A} (a : A) : quiet P (jret a).
Proof. intros s Hs. split; [done|]. by intros e. Qed.

Lemma quiet_emit (e : effect) : quiet P (emit e).
Proof. intros s Hs. split; [done|]. by intros e'. Qed.

Lemma quiet_raise {A} (e : exn) : P e -> quiet P (@jraise A e).
Proof. intros He s Hs. split; [done|]. by intros e' [= <-]. Qed.

Lemma quiet_may_fail (f : option exn) :
  (forall e, f = Some e -> P e) -> quiet P (may_fail f).
Proof.
  intros Hf. destruct f as [e|]; [|apply quiet_ret].
  apply quiet_raise. by apply Hf.
Qed.

Lemma quiet_bind {A B} (m : J A) (k : A -> J B) :
  quiet P m -> (forall a, quiet P (k a)) -> quiet P (m ≫= k).
Proof.
  intros Hm Hk s Hs. unfold mbind, J_bind, jbind.
  destruct (Hm s Hs) as [Hs' He]. destruct (m s) as [s' [a|e]]; simpl in *.
  - by apply Hk.
  - split; [done|]. intros e' [= <-]. by apply He.
Qed.

Lemma quiet_catch {A} {Q : exn -> Prop} (m : J A) (handler : exn -> J A) :
  quiet Q m -> (forall e, Q e -> quiet P (handler e)) ->
  quiet P (jcatch m handler).
Proof.
  intros Hm Hh s Hs. unfold jcatch.
  destruct (Hm s Hs) as [Hs' He]. destruct (m s) as [s' [a|e]]; simpl in *.
  - split; [done|]. by intros e.
  - apply Hh; [by apply He|done].
Qed.

Lemma quiet_set_force_error :
  quiet P (set_result "error" (PyStr force_interrupt_error)).
Proof.
  intros s (Hsucc & Hlast & _). split; [|by intros e].
  split; [|split]; simpl.
  - by rewrite lookup_insert_ne.
  - done.
  - right. by rewrite lookup_insert_eq.
Qed.

Lemma quiet_CustomLogger_write (data : string) : quiet P (CustomLogger_write data).
Proof.
  unfold CustomLogger_write.
  induction (splitlines_keepends data) as [|line lines IH]; simpl.
  - apply quiet_ret.
  - apply quiet_bind; [apply quiet_emit|done].
Qed.

Lemma quiet_expect_EOF (script : list string * outcome unit) :
  (forall e, snd script = Raise e -> P e) -> quiet P (expect_EOF script).
Proof.
  intros Hs. unfold expect_EOF.
  induction (fst script) as [|chunk chunks IH]; simpl.
  - intros s ?. split; [done|]. simpl. apply Hs.
  - apply quiet_bind; [apply quiet_CustomLogger_write|done].
Qed.

Lemma quiet_send_lines (c : child_script) (i : nat) (lines : list string) :
  (forall j e, send_failure c = Some (j, e) -> P e) ->
  quiet P (send_lines c i lines).
Proof.
  intros Hc. revert i. induction lines as [|line lines IH]; intros i; simpl.
  - apply quiet_ret.
  - apply quiet_bind; [|done]. unfold send_user_line.
    apply quiet_bind; [apply quiet_emit|]. intros _.
    apply quiet_bind; [apply quiet_emit|]. intros _.
    destruct (send_failure c) as [[j e]|] eqn:E; [|apply quiet_ret].
    destruct (decide (i = j)); [|apply quiet_ret].
    apply quiet_raise. by eapply Hc.
Qed.

Lemma always_raises_bind {A B} (m : J A) (k : A -> J B) :
  quiet P m -> (forall a, always_raises P (k a)) -> always_raises P (m ≫= k).
Proof.
  intros Hm Hk s Hs. unfold mbind, J_bind, jbind.
  destruct (Hm s Hs) as [Hs' He]. destruct (m s) as [s' [a|e]]; simpl in *.
  - by apply Hk.
  - split; [done|]. exists e. split; [done|]. by apply He.
Qed.

End JudgeInvariant.

Lemma script_exceptions_elem (c : child_script) :
  Forall is_exception (script_exceptions c) ->
  (forall j e, send_failure c = Some (j, e) -> is_exception e) /\
  (forall e, snd (expect_first c) = Raise e -> is_exception e) /\
  (forall e, sendcontrol_failure c = Some e -> is_exception e) /\
  (forall e, snd (expect_second c) = Raise e -> is_exception e) /\
  (forall e, force_close_failure c = Some e -> is_exception e) /\
  (forall e, close_failure c = Some e -> is_exception e).
Proof.
  unfold script_exceptions. rewrite !Forall_app.
  intros (H1 & H2 & H3 & H4 & H5 & H6). repeat split.
  - intros j e E. rewrite E in H1. by inversion H1.
  - intros e E. rewrite E in H2. by inversion H2.
  - intros e E. rewrite E in H3. by inversion H3.
  - intros e E. rewrite E in H4. by inversion H4.
  - intros e E. rewrite E in H5. by inversion H5.
  - intros e E. rewrite E in H6. by inversion H6.
Qed.

(** With an exit status other than 0 and 130 the body of the [try] never
    completes: at the latest, reading [last_output] raises. *)
Lemma judge_try_raises (c : child_script) (input_lines : list string) :
  Forall is_exception (script_exceptions c) ->
  exitstatus c <> Some 0 -> exitstatus c <> Some 130 ->
  always_raises is_exception (judge_try c input_lines).
Proof.
  intros (Hsend & Hfirst & Hctl & Hsecond & Hforce & Hclose)%script_exceptions_elem
         H0 H130.
  unfold judge_try.
  apply always_raises_bind; [by apply quiet_send_lines|]. intros _.
  apply always_raises_bind.
  { apply (quiet_catch (Q := is_exception)); [by apply quiet_expect_EOF|].
    intros e He. destruct (decide (exn_cls e = TIMEOUT)); [|by apply quiet_raise].
    apply quiet_bind; [apply quiet_emit|]. intros _.
    apply quiet_bind; [apply quiet_emit|]. intros _.
    apply quiet_bind; [by apply quiet_may_fail|]. intros _.
    apply (quiet_catch (Q := is_exception)); [by apply quiet_expect_EOF|].
    intros e' He'. destruct (decide (exn_cls e' = TIMEOUT)); [|by apply quiet_raise].
    apply quiet_bind; [apply quiet_emit|]. intros _.
    apply quiet_bind; [by apply quiet_may_fail|]. intros _.
    apply quiet_set_force_error. }
  intros _.
  apply always_raises_bind; [apply quiet_emit|]. intros _.
  apply always_raises_bind; [by apply quiet_may_fail|]. intros _.
  intros s Hs. unfold mbind, J_bind, jbind.
  destruct (decide (exitstatus c = Some 0)); [done|].
  destruct (decide (exitstatus c = Some 130)); [done|].
  unfold get_last_output. destruct Hs as (Hsucc & Hlast & Herr).
  rewrite Hlast. simpl. split; [done|]. eexists. split; [done|]. done.
Qed.

Lemma judge_guarded_bad_status (c : child_script) (input_lines : list string)
    (s : jstate) :
  Forall is_exception (script_exceptions c) ->
  exitstatus c <> Some 0 -> exitstatus c <> Some 130 ->
  unclassified s ->
  exists s', judge_guarded c input_lines s = (s', Ok tt) /\
    result s' !! "success" = Some (PyBool false) /\
    (result s' !! "error" = Some PyNone \/
     result s' !! "error" = Some (PyStr force_interrupt_error) \/
     result s' !! "error" = Some (PyStr "Program execution timed out")).
Proof.
  intros Hc H0 H130 Hs.
  destruct (judge_try_raises c input_lines Hc H0 H130 s Hs)
    as [(Hsucc & _ & Herr) (e & He & Hexc)].
  unfold judge_guarded, jcatch.
  destruct (judge_try c input_lines s) as [s' o]. simpl in *. subst o.
  destruct (decide (exn_cls e = TIMEOUT)).
  - eexists. split; [done|]. simpl. split.
    + by rewrite lookup_insert_ne.
    + right. right. by rewrite lookup_insert_eq.
  - rewrite Hexc. destruct (decide (exn_cls e = KeyboardInterrupt)) as [Hk|_].
    { unfold is_exception, is_Exception in Hexc. by rewrite Hk in Hexc. }
    exists s'. split; [done|]. split; [done|]. destruct Herr; auto.
Qed.

(** C1.  When the child exits with a status other than 0 and 130, and
    whatever its output, [judge] returns a result with success false: the
    test for the marker reads [last_output] before it is assigned, and the
    resulting exception is swallowed.  The error of the result is [None],
    the message of the forced interrupt or the message of the timeout,
    never the message made of the exit status and the last output. *)
Theorem judge_bad_exit_status (w : judge_world)
    (context entry_command : string) (input_file : option string)
    (input_lines : list string) (c : child_script) :
  truthy_opt input_file && negb (path_exists w (default "" input_file)) = false ->
  (if truthy_opt input_file && path_exists w (default "" input_file)
   then open_input w (default "" input_file) else Ok []) = Ok input_lines ->
  spawn w entry_command = Ok c ->
  Forall is_exception (script_exceptions c) ->
  exitstatus c <> Some 0 -> exitstatus c <> Some 130 ->
  exists tr d,
    judge w context entry_command input_file = (tr, Ok d) /\
    d !! "success" = Some (PyBool false) /\
    (d !! "error" = Some PyNone \/
     d !! "error" = Some (PyStr force_interrupt_error) \/
     d !! "error" = Some (PyStr "Program execution timed out")) /\
    d !! "error" <> Some (PyStr (exit_status_error (exitstatus c) (before c))).
Proof.
  intros Hpresent Hlines Hspawn Hc H0 H130.
  unfold judge. rewrite Hpresent, Hlines, Hspawn.
  set (s0 := {| effects := [Spawn entry_command];
                result := judge_initial_result; last_output := None |}).
  assert (unclassified s0) as Hs0.
  { split; [done|]. split; [done|]. by left. }
  destruct (judge_guarded_bad_status c input_lines s0 Hc H0 H130 Hs0)
    as (s' & -> & Hsucc & Herr).
  eexists _, _. split; [done|].
  rewrite !lookup_insert_ne by done.
  split; [done|]. split; [done|].
  destruct Herr as [-> | [-> | ->]]; [done|by intros [=]..].
Qed.

(** A child that catches the interrupt, prints the marker and exits with
    status 1. *)
Lemma judge_bad_exit_status_witness :
  contains "keyboardInterrupt" (before (child_exits 1 "keyboardInterrupt caught")) = true /\
  exists tr d,
    judge (world_without_files (child_exits 1 "keyboardInterrupt caught"))
      "" "python main.py" None = (tr, Ok d) /\
    d !! "success" = Some (PyBool false).
Proof.
  split; [reflexivity|].
  assert (Forall is_exception
            (script_exceptions (child_exits 1 "keyboardInterrupt caught")))
    as Hc by constructor.
  assert (exitstatus (child_exits 1 "keyboardInterrupt caught") <> Some 0)
    as H0 by discriminate.
  assert (exitstatus (child_exits 1 "keyboardInterrupt caught") <> Some 130)
    as H130 by discriminate.
  destruct (judge_bad_exit_status
              (world_without_files (child_exits 1 "keyboardInterrupt caught"))
              "" "python main.py" None []
              (child_exits 1 "keyboardInterrupt caught")
              eq_refl eq_refl eq_refl Hc H0 H130)
    as (tr & d & Hj & Hsucc & _).
  exists tr, d. split; [exact Hj|exact Hsucc].
Defined.

Lemma CustomLogger_write_ok (data : string) (s : jstate) :
  exists s', CustomLogger_write data s = (s', Ok tt) /\ result s' = result s.
Proof.
  unfold CustomLogger_write. revert s.
  induction (splitlines_keepends data) as [|l ls IH]; intros s.
  - by exists s.
  - cbn [fold_right]. unfold mbind at 1, J_bind at 1, jbind at 1.
    unfold emit at 1. cbv beta iota.
    destruct (IH {| effects := effects s ++ [LogWrite ("program: " +:+ l)];
                    result := result s; last_output := last_output s |})
      as (s' & Hrun & Hr).
    exists s'. split; [exact Hrun|exact Hr].
Qed.

Lemma expect_EOF_ok (chunks : list string) (s : jstate) :
  exists s', expect_EOF (chunks, Ok tt) s = (s', Ok tt) /\ result s' = result s.
Proof.
  unfold expect_EOF. cbn [fst snd]. revert s.
  induction chunks as [|chunk chunks IH]; intros s.
  - by exists s.
  - cbn [fold_right]. unfold mbind at 1, J_bind at 1, jbind at 1.
    destruct (CustomLogger_write_ok chunk s) as (s1 & -> & Hr1).
    destruct (IH s1) as (s2 & Hrun & Hr2).
    exists s2. split; [exact Hrun|congruence].
Qed.

(** With status 0 or 130, and no operation on the child failing, the
    result has success true. *)
Lemma judge_good_exit_status (w : judge_world)
    (context entry_command : string) (chunks : list string)
    (status : Z) (output : string) :
  status = 0 \/ status = 130 ->
  spawn w entry_command =
    Ok {| send_failure := None; expect_first := (chunks, Ok tt);
          sendcontrol_failure := None; expect_second := ([], Ok tt);
          force_close_failure := None; close_failure := None;
          exitstatus := Some status; before := output |} ->
  exists tr d, judge w context entry_command None = (tr, Ok d) /\
               d !! "success" = Some (PyBool true).
Proof.
  intros Hstatus Hspawn. unfold judge. rewrite Hspawn. cbn [truthy_opt andb].
  set (s0 := {| effects := [Spawn entry_command];
                result := judge_initial_result; last_output := None |}).
  unfold judge_guarded, jcatch, judge_try.
  unfold mbind, J_bind, jbind. cbn [send_lines jret expect_first].
  unfold jcatch. destruct (expect_EOF_ok chunks s0) as (s1 & -> & Hr1).
  cbn [emit may_fail close_failure jret exitstatus fst snd].
  destruct (decide (Some status = Some 0)) as [|H0].
  - cbn [jret set_result]. eexists _, _. split; [done|].
    rewrite lookup_insert_ne by done. simpl. by rewrite lookup_insert_eq.
  - destruct (decide (Some status = Some 130)) as [|H130].
    + cbn [jret set_result]. eexists _, _. split; [done|].
      rewrite lookup_insert_ne by done. simpl. by rewrite lookup_insert_eq.
    + destruct Hstatus; congruence.
Qed.

(** C8, counterexample.  With the empty string as input file, which
    names no existing path, [judge] spawns the child and reports
    success. *)
Lemma judge_empty_input_file_counterexample :
  path_exists (world_without_files (child_exits 0 "")) "" = false /\
  exists d,
    judge (world_without_files (child_exits 0 "")) "" "cat" (Some "")
      = ([Spawn "cat"; Close true], Ok d) /\
    d !! "success" = Some (PyBool true).
Proof.
  split; [reflexivity|]. eexists. split; [reflexivity|]. reflexivity.
Qed.

(** C8, as amended.  For every call with a non-null and non-empty
    [input_file] whose path does not exist, [judge] has no effect on the
    outside world (no child is spawned) and returns, without raising, a
    result with success false, an error message that names the input
    file, and the empty log. *)
Theorem judge_input_file_missing (w : judge_world)
    (context entry_command input_file : string) :
  input_file <> "" ->
  path_exists w input_file = false ->
  exists d,
    judge w context entry_command (Some input_file) = ([], Ok d) /\
    d !! "success" = Some (PyBool false) /\
    d !! "error" = Some (PyStr (input_missing_error input_file)) /\
    contains input_file (input_missing_error input_file) = true /\
    d !! "log" = Some (PyStr "").
Proof.
  intros Hne Hmissing. unfold judge.
  assert (truthy_opt (Some input_file) = true) as ->
    by (by destruct input_file).
  cbn [from_option id]. rewrite Hmissing. cbn [negb andb].
  eexists. split; [done|].
  rewrite lookup_insert_eq, !lookup_insert_ne by done.
  split; [done|]. split; [done|]. split; [|done].
  apply contains_spec. by exists "Input file ", " does not exist, please check the path and call again.".
Qed.

Lemma judge_input_file_missing_witness :
  exists d,
    judge (world_without_files (child_exits 0 "")) "" "cat" (Some "a.in")
      = ([], Ok d) /\
    d !! "success" = Some (PyBool false) /\
    d !! "log" = Some (PyStr "").
Proof.
  destruct (judge_input_file_missing (world_without_files (child_exits 0 ""))
              "" "cat" "a.in") as (d & Hj & Hsucc & _ & _ & Hlog).
  - discriminate.
  - reflexivity.
  - exists d. split; [exact Hj|]. split; [exact Hsucc|exact Hlog].
Defined.

(** ** The push-style output relay *)

Lemma read_from_python_chunks (chunks : list string) (rest : list read_result) :
  read_from_python (map Chunk chunks ++ rest) =
  (map SendStr (filter (fun s => truthy s = true) chunks)
     ++ fst (read_from_python rest),
   snd (read_from_python rest)).
Proof.
  induction chunks as [|output chunks IH]; simpl.
  - by destruct (read_from_python rest).
  - rewrite IH. destruct (truthy output) eqn:E.
    + by rewrite filter_cons_True.
    + rewrite filter_cons_False; [done|]. by rewrite E.
Qed.

(** C3.  The reader task returns at the first read that times out: of a
    run of reads it forwards the non-empty chunks before the first
    timeout and nothing that the process prints afterwards, neither the
    later chunks nor the sentinel at end of stream.  So a chunk printed
    after one second of silence is not forwarded, though the process still
    runs. *)
Theorem read_from_python_stops_at_timeout :
  (forall chunks rest,
     read_from_python (map Chunk chunks ++ ReadTIMEOUT :: rest) =
     (map SendStr (filter (fun s => truthy s = true) chunks), ReaderReturned))
  /\ read_from_python [Chunk ">>> "; ReadTIMEOUT; Chunk "20"; ReadEOF]
     = ([SendStr ">>> "], ReaderReturned).
Proof.
  split; [|reflexivity].
  intros chunks rest. rewrite read_from_python_chunks. simpl.
  by rewrite app_nil_r.
Qed.

(** Without a timeout every non-empty chunk is forwarded, then the
    sentinel, then the connection is closed. *)
Lemma read_from_python_to_end_of_stream (chunks : list string)
    (rest : list read_result) :
  read_from_python (map Chunk chunks ++ ReadEOF :: rest) =
  (map SendStr (filter (fun s => truthy s = true) chunks)
     ++ [SendStr "[Python process ended]"; WsClose], ReaderReturned).
Proof. by rewrite read_from_python_chunks. Qed.

Lemma read_from_python_cancelled (chunks : list string) :
  read_from_python (map Chunk chunks) =
  (map SendStr (filter (fun s => truthy s = true) chunks), ReaderCancelled).
Proof.
  rewrite <- (app_nil_r (map Chunk chunks)), read_from_python_chunks.
  simpl. by rewrite app_nil_r.
Qed.

(** ** Killing a session *)

(** Whatever [terminate] does, [kill_shell_session] answers with a
    dictionary: the message when [terminate] returns, the error when it
    raises an [Exception]. *)
Lemma kill_shell_session_structured {registry : Type}
    (terminate' : registry -> string -> registry * outcome unit)
    (sessions : registry) (session_id : string) :
  (forall e, snd (terminate' sessions session_id) = Raise e -> is_exception e) ->
  exists d, snd (kill_shell_session terminate' sessions session_id) = Ok d /\
    (is_Some (d !! "message") <->
     snd (terminate' sessions session_id) = Ok tt).
Proof.
  intros He. unfold kill_shell_session.
  destruct (terminate' sessions session_id) as [sessions' [[]|e]]; simpl in *.
  - eexists. split; [done|]. split; [done|]. intros _. by eexists.
  - rewrite (He e eq_refl). eexists. split; [done|].
    split; [|done]. intros [v Hv]. by vm_compute in Hv.
Qed.

(** C9.  Whatever [terminate] does, short of raising something that is
    not an [Exception], [kill_shell_session] returns a dictionary and does
    not raise.  Against the registry of the spec it returns the
    termination message for every session id, alive or not; afterwards the
    session is not alive, and killing it a second time returns the same
    result and leaves the same registry. *)
Theorem kill_shell_session_idempotent :
  (forall (registry : Type)
          (terminate' : registry -> string -> registry * outcome unit)
          (sessions : registry) (session_id : string),
     (forall e, snd (terminate' sessions session_id) = Raise e -> is_exception e) ->
     exists d, snd (kill_shell_session terminate' sessions session_id) = Ok d)
  /\
  (forall (sessions : gset string) (session_id : string),
     let once := kill_shell_session terminate sessions session_id in
     snd once = Ok {[ "message" := PyStr (terminated_message session_id);
                      "output" := PyStr (terminated_message session_id) ]}
     /\ (session_id ∉ fst once)
     /\ kill_shell_session terminate (fst once) session_id = once).
Proof.
  split.
  - intros registry terminate' sessions session_id He.
    destruct (kill_shell_session_structured terminate' sessions session_id He)
      as (d & Hd & _). by exists d.
  - intros sessions session_id.
    unfold kill_shell_session, terminate. cbn [fst snd].
    split; [reflexivity|]. split.
    + rewrite elem_of_difference, elem_of_singleton. by intros [_ []].
    + f_equal. apply set_eq. intros x.
      rewrite !elem_of_difference. tauto.
Qed.

Lemma kill_shell_session_idempotent_witness :
  exists d, snd (kill_shell_session terminate_failing ∅ "s1") = Ok d.
Proof.
  apply (proj1 kill_shell_session_idempotent (gset string) terminate_failing
           ∅ "s1").
  intros e [= <-]. reflexivity.
Defined.

(** ** The switch for path restriction *)

Lemma lower_char_t (c : ascii) :
  lower_char c = "t"%char -> (c = "t" \/ c = "T")%char.
Proof. destruct c as [[] [] [] [] [] [] [] []]; vm_compute; intros [=]; auto. Qed.

Lemma lower_char_r (c : ascii) :
  lower_char c = "r"%char -> (c = "r" \/ c = "R")%char.
Proof. destruct c as [[] [] [] [] [] [] [] []]; vm_compute; intros [=]; auto. Qed.

Lemma lower_char_u (c : ascii) :
  lower_char c = "u"%char -> (c = "u" \/ c = "U")%char.
Proof. destruct c as [[] [] [] [] [] [] [] []]; vm_compute; intros [=]; auto. Qed.

Lemma lower_char_e (c : ascii) :
  lower_char c = "e"%char -> (c = "e" \/ c = "E")%char.
Proof. destruct c as [[] [] [] [] [] [] [] []]; vm_compute; intros [=]; auto. Qed.

Lemma lower_true (value : string) :
  lower value = "true" <-> reads_true value.
Proof.
  split.
  - destruct value as [|t [|r [|u [|e [|]]]]]; try done.
    simpl. intros [= Ht Hr Hu He]. exists t, r, u, e.
    split; [done|]. split; [by apply lower_char_t|].
    split; [by apply lower_char_r|].
    split; [by apply lower_char_u|by apply lower_char_e].
  - intros (t & r & u & e & -> & Ht & Hr & Hu & He).
    destruct Ht as [-> | ->], Hr as [-> | ->], Hu as [-> | ->],
             He as [-> | ->]; reflexivity.
Qed.

(** C10.  When the environment variable [ENABLE_PATH_RESTRICTION] is set
    to a value that does not read [true] with case ignored,
    [validate_write_path] returns true for every path, and the guards of
    [write_file] and [delete_file] refuse nothing. *)
Theorem path_restriction_switched_off (WORKSPACE_DIR value : string) :
  ~ reads_true value ->
  forall path,
    validate_write_path WORKSPACE_DIR
      (ENABLE_PATH_RESTRICTION_of (Some value)) path = Ok true /\
    write_file_guard WORKSPACE_DIR
      (ENABLE_PATH_RESTRICTION_of (Some value)) path = Ok None /\
    delete_file_guard WORKSPACE_DIR
      (ENABLE_PATH_RESTRICTION_of (Some value)) path = Ok None.
Proof.
  intros Hvalue path.
  assert (ENABLE_PATH_RESTRICTION_of (Some value) = false) as ->.
  { unfold ENABLE_PATH_RESTRICTION_of. apply String.eqb_neq.
    intros H. by apply Hvalue, lower_true. }
  done.
Qed.

Lemma path_restriction_switched_off_witness :
  validate_write_path BASE_WORKSPACE_DIR
    (ENABLE_PATH_RESTRICTION_of (Some "false")) "/etc/passwd" = Ok true.
Proof.
  assert (~ reads_true "false") as H.
  { intros (t & r & u & e & Heq & _). discriminate Heq. }
  exact (proj1 (path_restriction_switched_off BASE_WORKSPACE_DIR "false" H
                  "/etc/passwd")).
Defined.

(** With the variable unset, or set to a value that reads [true], the
    restriction is on. *)
Lemma path_restriction_switched_on (env_value : option string) :
  from_option reads_true True env_value ->
  ENABLE_PATH_RESTRICTION_of env_value = true.
Proof.
  unfold ENABLE_PATH_RESTRICTION_of. destruct env_value as [value|]; simpl.
  - intros H%lower_true. rewrite H. done.
  - done.
Qed.

(** ** The file tools *)

Lemma join_step_absolute (a b : string) :
  startswith "/" a = true -> startswith "/" (join_step a b) = true.
Proof.
  intros Ha. unfold join_step. destruct (startswith "/" b) eqn:Hb; [done|].
  destruct (negb (truthy a) || endswith_char slash a); by apply startswith_app_l.
Qed.

Lemma validate_write_path_relative_raises (WORKSPACE_DIR path : string) :
  startswith "/" WORKSPACE_DIR = true -> startswith "/" path = false ->
  validate_write_path WORKSPACE_DIR true path =
  Raise (mkExn ValueError "Can't mix absolute and relative paths").
Proof.
  intros Hws Hp. unfold validate_write_path, allowed_paths.
  change (seq 1 50) with (1%nat :: seq 2 49). rewrite map_cons.
  cbn [any_commonpath]. rewrite commonpath2_mixed; [done|done|].
  unfold os_path_join. cbn [fold_left]. by do 2 apply join_step_absolute.
Qed.

(** X1.  With path restriction on and an absolute workspace root, a
    relative path makes [validate_write_path] raise [ValueError], and
    [write_file] and [delete_file], which call it outside their [try],
    let the exception through and touch no file. *)
Theorem write_tools_raise_on_relative_path
    (WORKSPACE_DIR : string) (fs : file_system) (path content : string) :
  startswith "/" WORKSPACE_DIR = true ->
  startswith "/" path = false ->
  let e := mkExn ValueError "Can't mix absolute and relative paths" in
  validate_write_path WORKSPACE_DIR true path = Raise e /\
  write_file WORKSPACE_DIR true fs path content = ([], Raise e) /\
  delete_file WORKSPACE_DIR true fs path = ([], Raise e).
Proof.
  intros Hws Hp e. unfold write_file, delete_file.
  by rewrite (validate_write_path_relative_raises _ _ Hws Hp).
Qed.

Lemma write_tools_raise_on_relative_path_witness :
  write_file BASE_WORKSPACE_DIR true (fs_all "") "notes.txt" "text" =
  ([], Raise (mkExn ValueError "Can't mix absolute and relative paths")).
Proof.
  exact (proj1 (proj2 (write_tools_raise_on_relative_path BASE_WORKSPACE_DIR
                         (fs_all "") "notes.txt" "text" eq_refl eq_refl))).
Defined.

Lemma components_slash (s : string) :
  components (String slash s) = components s.
Proof.
  unfold components. rewrite split_char_cons, Ascii.eqb_refl.
  by rewrite filter_cons_False by (by cbv).
Qed.

(** [str(Path(p))] of an absolute path is absolute and has the components
    of [p]. *)
Lemma Path_str_absolute (p : string) :
  startswith "/" p = true ->
  startswith "/" (Path_str (Path p)) = true /\
  components (Path_str (Path p)) = components p.
Proof.
  intros Hp. unfold Path_str, Path. cbn [pp_root pp_parts]. rewrite Hp.
  pose proof (components_good p) as Hgood.
  destruct (startswith "//" p && negb (startswith "///" p)).
  - split; [done|].
    change ("//" +:+ join "/" (components p))
      with (String slash ("/" +:+ join "/" (components p))).
    by rewrite components_slash, components_normal.
  - split; [done|]. by rewrite components_normal.
Qed.

(** X3.  [read_file] opens a file exactly when the read validator allows
    the path, the file exists and its size is at most [MAX_FILE_SIZE]: a
    file of exactly [MAX_FILE_SIZE] bytes is read, a larger one is not
    opened.  The size it reports is the length of the text read. *)
Theorem read_file_opens_within_limit
    (WORKSPACE_DIR : string) (resolve : string -> outcome string)
    (fs : file_system) (path : string) :
  let p := Path_str (Path path) in
  let r := read_file WORKSPACE_DIR resolve fs path in
  (fst r = [FsRead p] <->
   validate_read_file_path WORKSPACE_DIR resolve path = Ok true /\
   fs_exists fs p = Ok true /\
   exists size, fs_size fs p = Ok size /\ size <= MAX_FILE_SIZE)
  /\ (fst r <> [FsRead p] -> fst r = [])
  /\ (forall content, fst r = [FsRead p] -> fs_read fs p = Ok content ->
        snd r = Ok {[ "file_path" := PyStr p; "content" := PyStr content;
                      "size" := PyInt (Z.of_nat (String.length content)) ]}).
Proof.
  intros p r. subst r. unfold read_file. fold p.
  destruct (validate_read_file_path WORKSPACE_DIR resolve path)
    as [[|]|e]; cbn [fst snd].
  2,3: split; [split; [done|by intros [? _]]|done].
  destruct (fs_exists fs p) as [[|]|e]; cbn [fst snd].
  2,3: split; [split; [done|by intros (_ & ? & _)]|done].
  destruct (fs_size fs p) as [size|e]; cbn [fst snd].
  2: split; [split; [done|by intros (_ & _ & ? & ? & _)]|done].
  destruct (Z.ltb_spec MAX_FILE_SIZE size); cbn [fst snd].
  - split; [split; [done|]|done].
    intros (_ & _ & size' & [= <-] & ?). lia.
  - split; [split; [intros _|done]|].
    + split; [done|]. split; [done|]. exists size. split; [done|lia].
    + split; [done|]. intros content _ ->. done.
Qed.

(** ** Validators that compare text *)

(** The last piece of [s] and the first piece of [t] become one piece of
    [s +:+ t]. *)
Lemma split_char_app (c : ascii) (s t : string) :
  exists ini l h tl,
    split_char c s = ini ++ [l] /\ split_char c t = h :: tl /\
    split_char c (s +:+ t) = ini ++ (l +:+ h) :: tl.
Proof.
  destruct (split_char c t) as [|h tl] eqn:Ht;
    [by apply split_char_nonempty in Ht|].
  induction s as [|a s (ini & l & h' & tl' & Hs & [= <- <-] & Hst)].
  - exists [], "", h, tl. by rewrite app_empty_l, Ht.
  - rewrite app_cons, !split_char_cons, Hs, Hst.
    destruct (Ascii.eqb a c).
    + by exists ("" :: ini), l, h, tl.
    + destruct ini as [|w ini]; cbn [app].
      * by exists [], (String a l), h, tl.
      * by exists (String a w :: ini), l, h, tl.
Qed.

Lemma string_app_self (s t : string) : s = s +:+ t -> t = "".
Proof.
  intros H. rewrite <- (app_empty_r s) in H at 1.
  symmetry. by apply (inj (String.app s)) in H.
Qed.

Lemma string_app_nonempty (s t : string) : s <> "" -> s +:+ t <> "".
Proof. by destruct s. Qed.

Lemma keep_component_app (l h : string) :
  l <> "" -> h <> "" -> keep_component (l +:+ h) = true.
Proof.
  intros Hl Hh. destruct l as [|a l]; [done|].
  rewrite app_cons. unfold keep_component. cbn [truthy andb].
  apply negb_true_iff, String.eqb_neq. intros [= _ H].
  destruct l; [by rewrite app_empty_l in H|by rewrite app_cons in H].
Qed.

(** A name written directly after a directory, with no slash between,
    names a path outside the directory. *)
Lemma sibling_not_under (dir name rest : string) :
  normalized_absolute dir -> components dir <> [] ->
  name <> "" -> has_char slash name = false ->
  ~ lies_under (dir +:+ name +:+ rest) dir.
Proof.
  intros Hdir Hne Hname Hfree [_ Hpre].
  destruct (exists_last Hne) as (cs & lastc & Hcs).
  pose proof (components_good dir) as Hgood. rewrite Hcs in Hgood.
  apply Forall_app in Hgood as [Hgood_cs Hlast].
  inversion Hlast as [|? ? [Hkeep Hlfree] _]; subst.
  assert (lastc <> "") as Hlastc by (by intros ->).
  (* the pieces of [dir] *)
  assert (split_char slash dir = ("" :: cs) ++ [lastc]) as Hsplit_dir.
  { rewrite Hdir, Hcs. change ("/" +:+ ?s) with (String slash s).
    rewrite split_char_cons, Ascii.eqb_refl, split_join; [done|by destruct cs|].
    apply Forall_app. split; [|by constructor].
    eapply Forall_impl; [exact Hgood_cs|]. by intros ? []. }
  (* the first piece of [name +:+ rest] *)
  destruct (split_char_app slash name rest)
    as (ini0 & l0 & h0 & tl0 & Hn & _ & Hnr).
  rewrite (split_char_free _ _ Hfree) in Hn.
  destruct ini0 as [|? [|]]; try done. injection Hn as <-.
  cbn [app] in Hnr.
  (* the pieces of the whole path *)
  destruct (split_char_app slash dir (name +:+ rest))
    as (ini & l & h & tl & Hd & Ht & Hall).
  rewrite Hsplit_dir in Hd. apply app_inj_tail in Hd as [<- <-].
  rewrite Hnr in Ht. injection Ht as <- <-.
  unfold components in Hpre at 2. rewrite Hall in Hpre.
  rewrite filter_app, filter_cons_False in Hpre by (by cbv).
  rewrite filter_cons_True in Hpre
    by (apply keep_component_app; [done|by apply string_app_nonempty]).
  assert (filter (fun c => keep_component c = true) cs = cs) as Hfilter.
  { clear -Hgood_cs. induction Hgood_cs as [|x cs [Hx _] _ IH]; [done|].
    by rewrite filter_cons_True, IH. }
  rewrite Hfilter, Hcs in Hpre. cbn [app] in Hpre.
  apply prefix_app_inv, prefix_cons_inv_1 in Hpre.
  apply string_app_self in Hpre. by apply string_app_nonempty in Hpre.
Qed.

(** X4.  The read validators compare text, not path components.  When
    the resolved path is the resolved workspace followed directly by a
    name, a sibling of the workspace such as [/ws_old/secret] beside
    [/ws], [validate_read_file_path] and [validate_path] of the file
    server both accept the path, although it lies outside the
    workspace. *)
Theorem read_validators_accept_siblings
    (WORKSPACE_DIR path : string) (resolve : string -> outcome string)
    (workspace_path name rest : string) :
  normalized_absolute workspace_path -> components workspace_path <> [] ->
  name <> "" -> has_char slash name = false ->
  resolve WORKSPACE_DIR = Ok workspace_path ->
  resolve path = Ok (workspace_path +:+ name +:+ rest) ->
  validate_read_file_path WORKSPACE_DIR resolve path = Ok true /\
  validate_path WORKSPACE_DIR resolve path = true /\
  ~ lies_under (workspace_path +:+ name +:+ rest) workspace_path.
Proof.
  intros Hnorm Hne Hname Hfree Hws Hpath. split; [|split].
  - unfold validate_read_file_path.
    destruct (startswith "/tmp" path); [done|].
    destruct (negb (startswith "/" path)); [done|].
    cbv [SANDBOX_MODE]. rewrite Hws, Hpath. cbv [obind].
    by rewrite startswith_app.
  - unfold validate_path. rewrite Hpath, Hws. apply startswith_app.
  - by apply sibling_not_under.
Qed.

Lemma read_validators_accept_siblings_witness :
  validate_read_file_path "/srv/ws" resolve_canonical "/srv/ws_old/secret.txt"
    = Ok true /\
  validate_path "/srv/ws" resolve_canonical "/srv/ws_old/secret.txt" = true /\
  ~ lies_under "/srv/ws_old/secret.txt" "/srv/ws".
Proof.
  apply (read_validators_accept_siblings "/srv/ws" "/srv/ws_old/secret.txt"
           resolve_canonical "/srv/ws" "_old" "/secret.txt");
    try reflexivity; discriminate.
Defined.

(** ** More on [run_interactive_shell] *)

Lemma split_ws_cons (a : ascii) (s : string) :
  split_ws (String a s) =
  if isspace a then split_ws s
  else match s with
       | "" => [String a ""]
       | String b _ =>
           if isspace b then String a "" :: split_ws s
           else match split_ws s with
                | [] => [String a ""]
                | w :: ws => String a w :: ws
                end
       end.
Proof. reflexivity. Qed.

Lemma split_ws_all_space (s : string) : all_space s = true -> split_ws s = [].
Proof.
  induction s as [|a s IH]; [done|]. cbn [all_space].
  intros [Ha Hs]%andb_true_iff. rewrite split_ws_cons, Ha. by apply IH.
Qed.

(** A word at the start of the text starts the first word of the split. *)
Lemma split_ws_first_word (p s : string) :
  p <> "" -> no_space p = true ->
  exists w ws, split_ws (p +:+ s) = (p +:+ w) :: ws.
Proof.
  induction p as [|a p IH]; [done|]. intros _. cbn [no_space].
  intros [Ha Hp]%andb_true_iff. apply negb_true_iff in Ha.
  rewrite app_cons, split_ws_cons, Ha.
  destruct p as [|b p].
  - rewrite app_empty_l. destruct s as [|b s]; [by exists "", []|].
    destruct (isspace b) eqn:Hb; [by exists "", (split_ws (String b s))|].
    destruct (split_ws (String b s)) as [|w ws]; [by exists "", []|].
    by exists w, ws.
  - destruct (IH ltac:(done) Hp) as (w & ws & Hsplit).
    cbn [no_space] in Hp. apply andb_true_iff in Hp as [Hb%negb_true_iff _].
    rewrite app_cons in Hsplit |- *. rewrite Hb, Hsplit.
    exists w, ws. by rewrite !app_cons.
Qed.

(** X5.  An input that starts with [python] is never stopped by the
    command gate, in interpreter mode or out of it: it is passed on to the
    session, and the session is in interpreter mode afterwards. *)
Theorem python_input_passes_gate
    (step : option string -> option string -> option string -> outcome dict)
    (context : env_state) (session_id : option string) (rest : string) :
  let r := run_interactive_shell step context session_id
             (Some ("python" +:+ rest)) in
  sr_effects r = [StepCall None session_id (Some ("python" +:+ rest))] /\
  interpreter_mode (sr_context r) session_id = true.
Proof.
  intros r. split.
  - subst r. unfold run_interactive_shell.
    destruct (split_ws_first_word "python" rest) as (w & ws & Hsplit);
      [done|done|].
    assert (truthy_opt (Some ("python" +:+ rest)) = true) as -> by done.
    cbn [from_option id]. rewrite Hsplit.
    assert (existsb (fun cmd => contains cmd ("python" +:+ w)) SAFE_COMMANDS
            = true) as ->.
    { apply existsb_safe_fragment. exists "python". split; [set_solver|].
      by exists "", w. }
    by destruct (_ && true).
  - subst r. rewrite interpreter_mode_after_step.
    assert (startswith "python" ("python" +:+ rest) = true) as Hs
      by apply startswith_app.
    cbn [from_option id truthy_opt]. by rewrite Hs.
Qed.

(** X6.  In interpreter mode an input made of white space only has no
    first word: [user_input.split()[0]] raises [IndexError], outside any
    [try], and the call raises instead of returning a result. *)
Theorem whitespace_input_raises
    (step : option string -> option string -> option string -> outcome dict)
    (context : env_state) (session_id : option string) (user_input : string) :
  interpreter_mode context session_id = true ->
  user_input <> "" -> all_space user_input = true ->
  let r := run_interactive_shell step context session_id (Some user_input) in
  sr_result r = Raise (mkExn IndexError "list index out of range") /\
  sr_effects r = [].
Proof.
  intros Hmode Hne Hspace r. subst r. unfold run_interactive_shell.
  unfold interpreter_mode in Hmode.
  destruct (default ∅ context !! session_id) as [b|] eqn:Hlook; [|done].
  simpl in Hmode. subst b. rewrite Hlook.
  assert (truthy_opt (Some user_input) = true) as -> by (by destruct user_input).
  cbn [from_option id andb]. by rewrite split_ws_all_space.
Qed.

Lemma whitespace_input_raises_witness :
  sr_result (run_interactive_shell step_idle (Some {[ Some "s1" := true ]})
               (Some "s1") (Some "   "))
  = Raise (mkExn IndexError "list index out of range").
Proof.
  refine (proj1 (whitespace_input_raises step_idle (Some {[ Some "s1" := true ]})
                   (Some "s1") "   " eq_refl _ eq_refl)).
  discriminate.
Defined.

(** X7.  A call for one session leaves the interpreter-mode flag of every
    other session as it was. *)
Theorem other_sessions_untouched
    (step : option string -> option string -> option string -> outcome dict)
    (context : env_state) (session_id other user_input : option string) :
  other <> session_id ->
  interpreter_mode
    (sr_context (run_interactive_shell step context session_id user_input))
    other
  = interpreter_mode context other.
Proof.
  intros Hne. unfold run_interactive_shell, interpreter_mode.
  set (d := default ∅ context).
  set (d1 := match d !! session_id with
             | Some _ => d
             | None => <[session_id:=false]> d
             end).
  assert (d1 !! other = d !! other) as Hd1.
  { subst d1. destruct (d !! session_id); [done|]. by rewrite lookup_insert_ne. }
  assert (default ∅ (match context with Some _ => Some d1 | None => None end)
          !! other = d !! other) as Hctx1.
  { destruct context; cbn [from_option id]; [done|].
    subst d. cbn [from_option id]. by rewrite lookup_empty. }
  destruct (if _ && _ then _ else _) as [[|]|e]; cbn [sr_context].
  - cbn [from_option id].
    destruct (_ && _); [by rewrite lookup_insert_ne, Hd1|].
    destruct (decide _); [by rewrite lookup_insert_ne, Hd1|]. by rewrite Hd1.
  - by rewrite Hctx1.
  - by rewrite Hctx1.
Qed.

Lemma other_sessions_untouched_witness :
  interpreter_mode
    (sr_context (run_interactive_shell step_idle (Some {[ Some "s1" := true ]})
                   (Some "s2") (Some "python")))
    (Some "s1")
  = true.
Proof.
  rewrite (other_sessions_untouched step_idle (Some {[ Some "s1" := true ]})
             (Some "s2") (Some "s1") (Some "python")) by discriminate.
  reflexivity.
Defined.

(** ** [interactive_system_command] *)

Lemma send_inputs_all (child : command_script) (i : nat) (inputs : list string) :
  cs_send_failure child = None ->
  send_inputs child i inputs = (map Sendline inputs, Ok tt).
Proof.
  intros Hnone. revert i. induction inputs as [|inp rest IH]; intros i; [done|].
  cbn [send_inputs]. rewrite Hnone, IH. done.
Qed.

Lemma send_inputs_failure (child : command_script) (i j : nat) (e : exn)
    (inputs : list string) :
  cs_send_failure child = Some (j, e) ->
  (i <= j < i + length inputs)%nat ->
  send_inputs child i inputs =
  (map Sendline (take (S (j - i)) inputs), Raise e).
Proof.
  intros Hfail. revert i. induction inputs as [|inp rest IH]; intros i Hj.
  - simpl in Hj. lia.
  - cbn [send_inputs]. rewrite Hfail.
    destruct (decide (i = j)) as [->|Hne].
    + replace (j - j)%nat with 0%nat by lia. cbn [take map]. by rewrite take_0.
    + rewrite IH by (simpl in Hj; lia).
      replace (j - i)%nat with (S (j - S i)) by lia. done.
Qed.

(** X8.  [interactive_system_command] spawns nothing for a command
    without a safe fragment.  For any other command it sends the inputs
    to the child in the order given, each once; when a [sendline] raises,
    nothing is sent after it and the failure is returned as an error. *)
Theorem interactive_system_command_sends_in_order
    (spawn_command : string -> outcome command_script)
    (command : string) (inputs : list string) (child : command_script) :
  (~ has_safe_fragment command ->
   interactive_system_command spawn_command command (Some inputs) =
   ([], Ok {[ "error" := PyStr "Command is not allowed in sandbox mode" ]}))
  /\
  (has_safe_fragment command -> spawn_command command = Ok child ->
   (cs_send_failure child = None ->
    fst (interactive_system_command spawn_command command (Some inputs)) =
    Spawn command :: map Sendline inputs)
   /\
   (forall j e, cs_send_failure child = Some (j, e) ->
      (j < length inputs)%nat -> is_exception e -> exn_cls e <> TIMEOUT ->
      interactive_system_command spawn_command command (Some inputs) =
      (Spawn command :: map Sendline (take (S j) inputs),
       Ok {[ "error" := PyStr ("Interactive command execution failed: "
                               +:+ exn_msg e) ]}))).
Proof.
  unfold interactive_system_command. rewrite <- existsb_safe_fragment.
  cbv [SANDBOX_MODE andb]. split.
  - intros Hno. by destruct (existsb _ SAFE_COMMANDS).
  - intros -> ->. cbn [negb from_option id]. split.
    + intros Hnone. by rewrite send_inputs_all.
    + intros j e Hfail Hj He Hcls.
      rewrite (send_inputs_failure child 0 j e) by (done || lia).
      replace (j - 0)%nat with j by lia. cbn [fst snd obind].
      destruct (decide (exn_cls e = TIMEOUT)); [done|]. by rewrite He.
Qed.

Lemma interactive_system_command_sends_in_order_witness :
  fst (interactive_system_command (fun _ => Ok (command_exits "3"))
         "python add.py" (Some ["1"; "2"]))
  = [Spawn "python add.py"; Sendline "1"; Sendline "2"].
Proof.
  apply (proj1 (proj2 (interactive_system_command_sends_in_order
                         (fun _ => Ok (command_exits "3"))
                         "python add.py" ["1"; "2"] (command_exits "3"))
                  ltac:(exists "python"; split; [set_solver|by exists "", " add.py"])
                  eq_refl)).
  reflexivity.
Defined.

(** ** Running Python code *)

(** X9.  [execute_python_code] removes its temporary file only when the
    run returns: when [subprocess.run] raises, on a timeout for one, the
    file is left behind.  [execute_code] of the interpreter server, whose
    [unlink] stands in a [finally], removes the file whatever the run
    does. *)
Theorem temporary_file_removal
    (WORKSPACE_DIR CURRENT_EXECUTION_ID sys_executable now : string)
    (os : exec_world) (code : string) (use_venv : bool)
    (python_executable temp_file : string) :
  choose_interpreter WORKSPACE_DIR CURRENT_EXECUTION_ID os use_venv
    = Ok python_executable ->
  make_temp os code = Ok temp_file ->
  let tool := execute_python_code WORKSPACE_DIR CURRENT_EXECUTION_ID os
                code use_venv in
  let server := execute_code os sys_executable now
                  (Ok {| req_code := Some code; req_timeout := None |}) in
  (UnlinkTemp temp_file ∈ fst tool <->
   exists result, run_args os [python_executable; temp_file] = Ok result)
  /\ (forall e, run_args os [python_executable; temp_file] = Raise e ->
        exn_cls e = TimeoutExpired ->
        tool = ([CreateTemp temp_file code;
                 RunArgs [python_executable; temp_file]],
                Ok {[ "error" := PyStr "Code execution timeout" ]}))
  /\ fst server = [CreateTemp temp_file code;
                   RunArgs [sys_executable; temp_file];
                   UnlinkTemp temp_file].
Proof.
  intros Hpy Htemp tool server. subst tool server.
  unfold execute_python_code, execute_code. cbn [req_code from_option id].
  rewrite Hpy, Htemp. split; [|split].
  - destruct (run_args os [python_executable; temp_file]) as [result|e];
      cbn [fst].
    + split; [by eexists|]. intros _. set_solver.
    + split; [|by intros [? ?]]. intros H.
      apply elem_of_cons in H as [H|H]; [done|].
      by apply list_elem_of_singleton in H.
  - intros e -> Hcls. cbn [fst snd].
    by destruct (decide (exn_cls e = TimeoutExpired)).
  - done.
Qed.

Lemma temporary_file_removal_witness :
  execute_python_code "/tmp/code_agent_workspace" "exec_1" os_timing_out
    "print(6 * 7)" true
  = ([CreateTemp "/tmp/tmpab12cd.py" "print(6 * 7)";
      RunArgs ["python"; "/tmp/tmpab12cd.py"]],
     Ok {[ "error" := PyStr "Code execution timeout" ]}).
Proof.
  exact (proj1 (proj2 (temporary_file_removal
                         "/tmp/code_agent_workspace" "exec_1" "python3" ""
                         os_timing_out "print(6 * 7)" true
                         "python" "/tmp/tmpab12cd.py" eq_refl eq_refl))
           _ eq_refl eq_refl).
Defined.

(** X10.  [execute_python_code] runs the interpreter of the virtual
    environment only when it was asked to, the environment exists and the
    interpreter exists in it, and falls back to [python] otherwise; but it
    reports [used_venv] true whenever the environment exists, also when
    it fell back to [python]. *)
Theorem used_venv_reports_directory
    (WORKSPACE_DIR CURRENT_EXECUTION_ID : string) (os : exec_world)
    (code : string) (use_venv : bool) (d : dict) :
  snd (execute_python_code WORKSPACE_DIR CURRENT_EXECUTION_ID os code use_venv)
    = Ok d ->
  is_Some (d !! "return_code") ->
  let venv := Path_str (venv_path WORKSPACE_DIR CURRENT_EXECUTION_ID) in
  let python := venv_python WORKSPACE_DIR CURRENT_EXECUTION_ID in
  (d !! "python_executable" = Some (PyStr python) /\
   use_venv = true /\ exists_before os venv = Ok true /\
   exists_before os (Path_str (Path python)) = Ok true
   \/ d !! "python_executable" = Some (PyStr "python"))
  /\ (d !! "used_venv" = Some (PyBool true) <->
      use_venv = true /\ exists_after os venv = Ok true).
Proof.
  intros Hd Hrc venv python. unfold execute_python_code in Hd.
  assert (forall py,
            choose_interpreter WORKSPACE_DIR CURRENT_EXECUTION_ID os use_venv
              = Ok py ->
            py = python /\ use_venv = true /\ exists_before os venv = Ok true /\
            exists_before os (Path_str (Path python)) = Ok true
            \/ py = "python") as Hchoice.
  { intros py. unfold choose_interpreter. fold venv python.
    destruct use_venv; [|intros [= <-]; by right].
    destruct (exists_before os venv) as [[|]|]; cbn [obind];
      [|intros [= <-]; by right|done].
    destruct (exists_before os (Path_str (Path python))) as [[|]|];
      cbn [obind]; [|intros [= <-]; by right|done].
    intros [= <-]. by left. }
  destruct (choose_interpreter _ _ _ _) as [py|e] eqn:Hpy; cbn [fst snd] in Hd.
  2:{ destruct (decide _); [|destruct (is_Exception e); [|done]];
        injection Hd as <-; by destruct Hrc as [? [=]]. }
  destruct (make_temp os code) as [t|e]; cbn [fst snd] in Hd.
  2:{ destruct (decide _); [|destruct (is_Exception e); [|done]];
        injection Hd as <-; by destruct Hrc as [? [=]]. }
  destruct (run_args os [py; t]) as [result|e]; cbn [fst snd] in Hd.
  2:{ destruct (decide _); [|destruct (is_Exception e); [|done]];
        injection Hd as <-; by destruct Hrc as [? [=]]. }
  destruct (unlink_temp os t) as [e|].
  { destruct (decide _); [|destruct (is_Exception e); [|done]];
      injection Hd as <-; by destruct Hrc as [? [=]]. }
  fold venv in Hd.
  destruct use_venv.
  - destruct (exists_after os venv) as [used|e]; cbn [obind] in Hd.
    2:{ destruct (decide _); [|destruct (is_Exception e); [|done]];
          injection Hd as <-; by destruct Hrc as [? [=]]. }
    injection Hd as <-. split.
    + destruct (Hchoice py eq_refl) as [(-> & H)| ->]; [left|right]; done.
    + destruct used; split; (done || by intros [_ [=]]).
  - cbn [obind] in Hd. injection Hd as <-. split.
    + destruct (Hchoice py eq_refl) as [(-> & H)| ->]; [left|right]; done.
    + split; [done|by intros [? _]].
Qed.

Lemma used_venv_reports_directory_witness :
  exists d,
    snd (execute_python_code "/tmp/code_agent_workspace" "exec_1" os_running
           "print(6 * 7)" true) = Ok d /\
    d !! "python_executable" = Some (PyStr "python") /\
    d !! "used_venv" = Some (PyBool true).
Proof.
  eexists. split; [reflexivity|].
  destruct (used_venv_reports_directory "/tmp/code_agent_workspace" "exec_1"
              os_running "print(6 * 7)" true _ eq_refl)
    as [_ Hused]; [by eexists|].
  split; [reflexivity|]. apply Hused. split; reflexivity.
Defined.

(** ** The transcript of [judge] *)

Lemma add_effects_nil (s : jstate) : add_effects s [] = s.
Proof. destruct s. unfold add_effects. simpl. by rewrite app_nil_r. Qed.

Lemma add_effects_app (s : jstate) (a b : list effect) :
  add_effects (add_effects s a) b = add_effects s (a ++ b).
Proof. unfold add_effects. simpl. by rewrite <- (assoc_L (++)). Qed.

Lemma jbind_ok {A B} (m : J A) (k : A -> J B) (s s' : jstate) (a : A) :
  m s = (s', Ok a) -> (m ≫= k) s = k a s'.
Proof. intros H. unfold mbind, J_bind, jbind. by rewrite H. Qed.


Lemma emit_run (e : effect) (s : jstate) :
  emit e s = (add_effects s [e], Ok tt).
Proof. reflexivity. Qed.

Lemma CustomLogger_write_run (data : string) (s : jstate) :
  CustomLogger_write data s =
  (add_effects s (map (fun line => LogWrite ("program: " +:+ line))
                      (splitlines_keepends data)), Ok tt).
Proof.
  unfold CustomLogger_write. revert s.
  induction (splitlines_keepends data) as [|l ls IH]; intros s.
  - by rewrite add_effects_nil.
  - cbn [fold_right map]. rewrite (jbind_ok _ _ _ _ _ (emit_run _ s)).
    by rewrite IH, add_effects_app.
Qed.

Lemma expect_EOF_run (script : list string * outcome unit) (s : jstate) :
  expect_EOF script s = (add_effects s (program_effects (fst script)), snd script).
Proof.
  unfold expect_EOF, program_effects. revert s.
  induction (fst script) as [|chunk chunks IH]; intros s.
  - by rewrite add_effects_nil.
  - cbn [fold_right map concat].
    rewrite (jbind_ok _ _ _ _ _ (CustomLogger_write_run chunk s)).
    by rewrite IH, add_effects_app.
Qed.

Lemma send_lines_run (c : child_script) (i : nat) (lines : list string)
    (s : jstate) :
  send_failure c = None ->
  send_lines c i lines s = (add_effects s (user_effects lines), Ok tt).
Proof.
  intros Hnone. unfold user_effects. revert i s.
  induction lines as [|line lines IH]; intros i s.
  - by rewrite add_effects_nil.
  - cbn [send_lines map concat]. unfold send_user_line. rewrite Hnone.
    erewrite jbind_ok; [|erewrite jbind_ok; [|apply emit_run];
                         erewrite jbind_ok; [|apply emit_run]; reflexivity].
    rewrite IH, !add_effects_app. done.
Qed.

Lemma log_text_app (a b : list effect) :
  log_text (a ++ b) = log_text a +:+ log_text b.
Proof.
  induction a as [|e a IH]; [done|]. cbn [app log_text fold_right].
  fold (log_text (a ++ b)). fold (log_text a). rewrite IH.
  destruct e; try done. by rewrite app_assoc_s.
Qed.

Lemma log_text_user (lines : list string) :
  log_text (user_effects lines) =
  concat_strings (map (fun line => "user: " +:+ rstrip_nl line +:+ nl) lines).
Proof.
  unfold user_effects. induction lines as [|l lines IH]; [done|].
  cbn [map concat]. rewrite log_text_app, IH. cbn [concat_strings fold_right map].
  cbn [log_text fold_right]. by rewrite app_empty_r.
Qed.

Lemma log_text_program_lines (lines : list string) :
  log_text (map (fun line => LogWrite ("program: " +:+ line)) lines) =
  concat_strings (map (String.append "program: ") lines).
Proof.
  induction lines as [|l lines IH]; [done|].
  cbn [map log_text fold_right concat_strings]. f_equal. exact IH.
Qed.

Lemma splitlines_keepends_cons (a : ascii) (s : string) :
  splitlines_keepends (String a s) =
  if is_linebreak a && negb (Ascii.eqb a "013" && startswith nl s)
  then String a "" :: splitlines_keepends s
  else match splitlines_keepends s with
       | [] => [String a ""]
       | w :: ws => String a w :: ws
       end.
Proof. reflexivity. Qed.

Lemma splitlines_keepends_empty (s : string) :
  splitlines_keepends s = [] -> s = "".
Proof.
  destruct s as [|a s]; [done|]. rewrite splitlines_keepends_cons.
  destruct (_ && _); [done|]. by destruct (splitlines_keepends s).
Qed.

(** Splitting into lines keeps every character. *)
Lemma splitlines_keepends_concat (s : string) :
  concat_strings (splitlines_keepends s) = s.
Proof.
  induction s as [|a s IH]; [done|]. rewrite splitlines_keepends_cons.
  destruct (_ && _).
  - cbn [concat_strings fold_right]. fold (concat_strings (splitlines_keepends s)).
    by rewrite IH.
  - destruct (splitlines_keepends s) as [|w ws] eqn:E.
    + by rewrite (splitlines_keepends_empty s E).
    + cbn [concat_strings fold_right] in *. by rewrite app_cons, IH.
Qed.

Lemma startswith_char_cons (c a : ascii) (s : string) :
  startswith (String c "") (String a s) = Ascii.eqb c a.
Proof.
  change (startswith (String c "") (String a s))
    with (Ascii.eqb c a && startswith "" s).
  destruct s; apply andb_true_r.
Qed.

Lemma splitlines_keepends_line_feed (s : string) :
  splitlines_keepends (String "010" s) = nl :: splitlines_keepends s.
Proof. reflexivity. Qed.

(** The first line of a text starts as the text does. *)
Lemma splitlines_keepends_first (s w : string) (ws : list string) :
  splitlines_keepends s = w :: ws -> startswith nl w = startswith nl s.
Proof.
  destruct s as [|a s]; [done|]. rewrite splitlines_keepends_cons.
  destruct (_ && _).
  - intros [= <- _]. unfold nl. by rewrite !startswith_char_cons.
  - destruct (splitlines_keepends s); intros [= <- _]; unfold nl;
      by rewrite !startswith_char_cons.
Qed.

Lemma ends_at_break_cons (a b : ascii) (s : string) :
  ends_at_break (String a (String b s)) = ends_at_break (String b s).
Proof. reflexivity. Qed.

Lemma splitlines_keepends_split (s : string) :
  split_at_breaks (splitlines_keepends s).
Proof.
  induction s as [|a s IH]; [done|]. rewrite splitlines_keepends_cons.
  destruct (is_linebreak a && negb (Ascii.eqb a "013" && startswith nl s))
    eqn:Hends.
  - apply andb_true_iff in Hends as [Hbreak Hpair].
    cbn [split_at_breaks one_line ends_at_break]. rewrite Hbreak.
    split; [done|]. split; [done|]. split; [|done].
    destruct (splitlines_keepends s) as [|next rest] eqn:Hs; [done|].
    split; [done|]. intros [Hcr Hnl].
    rewrite (splitlines_keepends_first _ _ _ Hs) in Hnl.
    cbn [endswith_char] in Hcr. by rewrite Hcr, Hnl in Hpair.
  - destruct (splitlines_keepends s) as [|w ws] eqn:Hs.
    + cbn [split_at_breaks one_line]. split; [done|]. split; [|done].
      by destruct (is_linebreak a).
    + destruct IH as (Hne & Hone & Hnext & Hrest).
      destruct w as [|b w]; [done|].
      cbn [split_at_breaks]. split; [done|]. split; [|split; [|done]].
      * cbn [one_line]. fold (one_line (String b w)).
        destruct (is_linebreak a) eqn:Hbreak; [|done].
        cbn [andb negb] in Hends. apply negb_false_iff in Hends.
        apply andb_true_iff in Hends as [Hcr Hnl]. rewrite Hcr. cbn [andb orb].
        destruct s as [|c s]; [done|].
        unfold nl in Hnl. rewrite startswith_char_cons in Hnl.
        apply Ascii.eqb_eq in Hnl. subst c.
        rewrite splitlines_keepends_line_feed in Hs. by injection Hs as <- <- _.
      * destruct ws as [|next ws]; [done|].
        by rewrite ends_at_break_cons, endswith_char_cons.
Qed.

(** X11.  [CustomLogger.write] writes the data to the log line by line,
    each line after the label [program: ], and loses nothing: the pieces
    written are the lines of the data, line breaks kept (every piece is
    one line and is not empty, every piece but the last ends at a line
    break, a carriage return and the line feed after it stay together),
    and put together they are the data. *)
Theorem CustomLogger_write_keeps_data (data : string) (s : jstate) :
  exists lines,
    CustomLogger_write data s =
      (add_effects s (map (fun line => LogWrite ("program: " +:+ line)) lines),
       Ok tt) /\
    concat_strings lines = data /\
    split_at_breaks lines.
Proof.
  exists (splitlines_keepends data). split; [apply CustomLogger_write_run|].
  split; [apply splitlines_keepends_concat|apply splitlines_keepends_split].
Qed.

Lemma jcatch_ok {A} (m : J A) (handler : exn -> J A) (s s' : jstate) (a : A) :
  m s = (s', Ok a) -> jcatch m handler s = (s', Ok a).
Proof. intros H. unfold jcatch. by rewrite H. Qed.


Lemma program_effects_lines (chunks : list string) :
  program_effects chunks =
  map (fun line => LogWrite ("program: " +:+ line))
      (concat (map splitlines_keepends chunks)).
Proof.
  unfold program_effects. induction chunks as [|c chunks IH]; [done|].
  cbn [map concat]. by rewrite IH, map_app.
Qed.

(** The classification of a run whose exit status is 0 or 130. *)
Lemma classify_success (c : child_script) (s : jstate) (status : Z) :
  exitstatus c = Some status -> status = 0 \/ status = 130 ->
  ((if decide (exitstatus c = Some 0) then jret true
    else if decide (exitstatus c = Some 130) then jret true
    else (last ← get_last_output;
          jret (contains "keyboardInterrupt" last)) : J bool) : J bool) s
  = (s, Ok true).
Proof.
  intros -> Hstatus. destruct (decide (Some status = Some 0)); [done|].
  destruct (decide (Some status = Some 130)); [done|].
  destruct Hstatus; congruence.
Qed.

(** X12.  In a run where nothing fails and the child reaches end of file
    within the first timeout with status 0 or 130, [judge] sends every
    line of the input file, stripped of its line feed, in order, before
    it reads any output, and calls [close()] once, which is pexpect's
    forcing close.  The text written to the log is the lines sent, each
    after the label [user: ], followed by the output read, each line
    after the label [program: ]; the log of the result is that text as it
    is read back from the file, with every carriage return and line feed,
    and every carriage return alone, turned into a line feed.  The result
    has success true and no error. *)
Theorem judge_clean_run_transcript (w : judge_world)
    (context entry_command : string) (input_file : option string)
    (input_lines chunks : list string) (c : child_script) (status : Z) :
  truthy_opt input_file && negb (path_exists w (default "" input_file)) = false ->
  (if truthy_opt input_file && path_exists w (default "" input_file)
   then open_input w (default "" input_file) else Ok []) = Ok input_lines ->
  spawn w entry_command = Ok c ->
  send_failure c = None -> expect_first c = (chunks, Ok tt) ->
  close_failure c = None ->
  exitstatus c = Some status -> status = 0 \/ status = 130 ->
  exists d,
    judge w context entry_command input_file =
      (Spawn entry_command :: user_effects input_lines
         ++ program_effects chunks ++ [Close true], Ok d) /\
    d !! "success" = Some (PyBool true) /\
    d !! "error" = Some PyNone /\
    d !! "log" = Some (PyStr (universal_newlines (
      concat_strings (map (fun line => "user: " +:+ rstrip_nl line +:+ nl)
                          input_lines)
      +:+ concat_strings (map (String.append "program: ")
                              (concat (map splitlines_keepends chunks)))))).
Proof.
  intros Hpresent Hlines Hspawn Hsend Hfirst Hclose Hstatus Hgood.
  unfold judge. rewrite Hpresent, Hlines, Hspawn.
  set (s0 := {| effects := [Spawn entry_command];
                result := judge_initial_result; last_output := None |}).
  assert (judge_try c input_lines s0 =
          ({| effects := Spawn entry_command :: user_effects input_lines
                           ++ program_effects chunks ++ [Close true];
              result := <["success" := PyBool true]> judge_initial_result;
              last_output := None |}, Ok tt)) as Htry.
  { unfold judge_try.
    erewrite jbind_ok by (by apply send_lines_run).
    erewrite jbind_ok
      by (apply jcatch_ok; rewrite expect_EOF_run, Hfirst; reflexivity).
    erewrite jbind_ok by apply emit_run.
    rewrite Hclose. erewrite jbind_ok by reflexivity.
    erewrite jbind_ok by (by eapply classify_success).
    rewrite !add_effects_app. unfold add_effects, set_result, s0. simpl.
    done. }
  unfold judge_guarded. rewrite (jcatch_ok _ _ _ _ _ Htry). cbn [effects result].
  eexists. split; [reflexivity|].
  rewrite lookup_insert_eq, !lookup_insert_ne by done.
  rewrite lookup_insert_eq.
  split; [done|]. split; [done|]. do 3 f_equal.
  change (Spawn entry_command :: ?l) with ([Spawn entry_command] ++ l).
  rewrite !log_text_app, log_text_user, program_effects_lines,
    log_text_program_lines.
  cbn [log_text fold_right]. by rewrite app_empty_l, app_empty_r.
Qed.

Lemma judge_clean_run_transcript_witness :
  exists d,
    judge {| path_exists := fun _ => true;
             open_input := fun _ => Ok ["hello" +:+ nl];
             spawn := fun _ => Ok (child_exits 0 ("hello" +:+ crlf)) |}
      "" "cat" (Some "a.in")
    = ([Spawn "cat"; LogWrite ("user: hello" +:+ nl); Sendline "hello";
        LogWrite ("program: hello" +:+ crlf); Close true], Ok d) /\
    d !! "success" = Some (PyBool true) /\
    d !! "log" = Some (PyStr ("user: hello" +:+ nl +:+ "program: hello" +:+ nl)).
Proof.
  destruct (judge_clean_run_transcript
              {| path_exists := fun _ => true;
                 open_input := fun _ => Ok ["hello" +:+ nl];
                 spawn := fun _ => Ok (child_exits 0 ("hello" +:+ crlf)) |}
              "" "cat" (Some "a.in") ["hello" +:+ nl] ["hello" +:+ crlf]
              (child_exits 0 ("hello" +:+ crlf)) 0
              eq_refl eq_refl eq_refl eq_refl eq_refl eq_refl eq_refl
              (or_introl eq_refl))
    as (d & Hj & Hsucc & _ & Hlog).
  exists d. split; [exact Hj|]. split; [exact Hsucc|exact Hlog].
Defined.



(** ** The configuration *)

(** X14.  Path restriction is on exactly when the environment variable
    [ENABLE_PATH_RESTRICTION] is not set or holds [true] in any mix of
    upper and lower case. *)
Theorem path_restriction_enabled_iff (env_value : option string) :
  ENABLE_PATH_RESTRICTION_of env_value = true <->
  from_option reads_true True env_value.
Proof.
  unfold ENABLE_PATH_RESTRICTION_of. destruct env_value as [value|]; simpl.
  - by rewrite String.eqb_eq, lower_true.
  - done.
Qed.

Lemma Forall_removelast {A} (P : A -> Prop) (l : list A) :
  Forall P l -> Forall P (removelast l).
Proof.
  induction 1 as [|x l Hx Hl IH]; [constructor|].
  cbn [removelast]. destruct l; [constructor|]. by constructor.
Qed.

Lemma normpath_loop_good (initial_slashes : nat) (new_comps comps : list string) :
  Forall good_component new_comps ->
  Forall (fun c => has_char slash c = false) comps ->
  Forall good_component (normpath_loop initial_slashes new_comps comps).
Proof.
  intros Hnew Hcomps. revert new_comps Hnew.
  induction Hcomps as [|comp rest Hfree _ IH]; intros new_comps Hnew; [done|].
  cbn [normpath_loop].
  destruct (String.eqb_spec comp "") as [|Hempty]; [by apply IH|].
  destruct (String.eqb_spec comp ".") as [|Hdot]; [by apply IH|].
  cbn [orb].
  destruct (_ || _ || _).
  - apply IH, Forall_app. split; [done|]. constructor; [|done].
    split; [|done]. unfold keep_component.
    apply andb_true_iff. split; [by destruct comp|].
    by apply negb_true_iff, String.eqb_neq.
  - destruct (negb _); apply IH; [by apply Forall_removelast|done].
Qed.

(** [normpath] of a path with one leading slash is in normal form. *)
Lemma normpath_normalized (path : string) :
  startswith "/" path = true -> startswith "//" path = false ->
  normalized_absolute (normpath path).
Proof.
  intros Habs Hsingle. unfold normpath. rewrite Habs, Hsingle.
  assert (truthy path = true) as -> by (by destruct path).
  cbn [negb andb].
  set (comps := normpath_loop 1 [] (split_char slash path)).
  change (slashes 1 +:+ join "/" comps) with (String slash (join "/" comps)).
  cbn [truthy].
  change (String slash (join "/" comps)) with ("/" +:+ join "/" comps).
  unfold normalized_absolute. rewrite components_normal; [done|].
  apply normpath_loop_good; [done|apply split_char_pieces_free].
Qed.

Lemma startswith_slash_cons (a : ascii) (s : string) :
  startswith "/" (String a s) = Ascii.eqb slash a.
Proof.
  change (startswith "/" (String a s)) with (Ascii.eqb slash a && startswith "" s).
  destruct s; apply andb_true_r.
Qed.

Lemma startswith_slashes_cons (a b : ascii) (s : string) :
  startswith "//" (String a (String b s)) = Ascii.eqb slash a && Ascii.eqb slash b.
Proof.
  change (startswith "//" (String a (String b s)))
    with (Ascii.eqb slash a && startswith "/" (String b s)).
  by rewrite startswith_slash_cons.
Qed.

Lemma join_step_single_slash (cwd path : string) :
  startswith "/" cwd = true -> startswith "//" cwd = false ->
  startswith "/" path = false ->
  startswith "/" (join_step cwd path) = true /\
  startswith "//" (join_step cwd path) = false.
Proof.
  intros Hcwd Hsingle Hrel. split; [by apply join_step_absolute|].
  unfold join_step. rewrite Hrel.
  destruct cwd as [|a [|b cwd]]; [done| |].
  - rewrite startswith_slash_cons in Hcwd. apply Ascii.eqb_eq in Hcwd as <-.
    change (negb (truthy (String slash ""))
            || endswith_char slash (String slash "")) with true.
    cbv iota. rewrite app_cons, app_empty_l.
    destruct path as [|c path]; [done|].
    rewrite startswith_slashes_cons, Ascii.eqb_refl.
    by rewrite startswith_slash_cons in Hrel.
  - rewrite startswith_slashes_cons in Hsingle.
    destruct (_ || _); rewrite !app_cons, startswith_slashes_cons; done.
Qed.

(** X15.  [config.py] leaves [WORKSPACE_DIR] absolute whatever the
    environment holds, and when [CODE_AGENT_WORKSPACE_DIR] is not set or
    holds a relative path, [WORKSPACE_DIR] is an absolute path in normal
    form (the current directory being absolute with a single leading
    slash): the form in which [validate_write_path] can find a report
    directory at the head of a path. *)
Theorem workspace_dir_configured (env_value : option string) (cwd : string) :
  startswith "/" cwd = true -> startswith "//" cwd = false ->
  startswith "/" (WORKSPACE_DIR_of env_value cwd) = true /\
  (from_option (fun value => startswith "/" value = false) True env_value ->
   normalized_absolute (WORKSPACE_DIR_of env_value cwd)).
Proof.
  intros Hcwd Hsingle. unfold WORKSPACE_DIR_of.
  destruct env_value as [value|]; cbn [from_option id].
  - unfold os_path_isabs. destruct (startswith "/" value) eqn:Hv; cbn [negb].
    + split; [done|]. intros [=].
    + assert (normalized_absolute (abspath cwd value)) as Hnorm.
      { unfold abspath, os_path_isabs. rewrite Hv.
        unfold os_path_join. cbn [fold_left].
        destruct (join_step_single_slash cwd value Hcwd Hsingle Hv).
        by apply normpath_normalized. }
      split; [|done]. rewrite Hnorm. apply (startswith_app "/").
  - split; [done|]. intros _. reflexivity.
Qed.

Lemma workspace_dir_configured_witness :
  WORKSPACE_DIR_of (Some "runs/../workspace") "/home/agent"
    = "/home/agent/workspace" /\
  normalized_absolute (WORKSPACE_DIR_of (Some "runs/../workspace") "/home/agent").
Proof.
  split; [reflexivity|].
  exact (proj2 (workspace_dir_configured (Some "runs/../workspace")
                  "/home/agent" eq_refl eq_refl) eq_refl).
Defined.

(** ** The interactive WebSocket handler *)

Lemma forward_messages_prefix (send_failure : option (nat * exn)) (i : nat)
    (msgs : list ws_message) :
  exists sent,
    fst (forward_messages send_failure i msgs) = map ChildSendline sent /\
    sent `prefix_of` message_texts msgs.
Proof.
  revert i. induction msgs as [|m msgs IH]; intros i.
  - by exists [].
  - destruct m as [data| |]; cbn [forward_messages message_texts omap].
    + destruct (match send_failure with
                | Some (j, e) => if decide (i = j) then Some e else None
                | None => None
                end).
      * exists [data]. split; [done|]. apply prefix_cons, prefix_nil.
      * destruct (IH (S i)) as (sent & Hsent & Hpre).
        destruct (forward_messages send_failure (S i) msgs) as [s r].
        exists (data :: sent). cbn [fst] in *. rewrite Hsent.
        split; [done|]. by apply prefix_cons.
    + exists []. split; [done|]. apply prefix_nil.
    + apply IH.
Qed.

Lemma forward_messages_all (i : nat) (msgs : list ws_message) :
  MsgError ∉ msgs ->
  forward_messages None i msgs = (map ChildSendline (message_texts msgs), Ok tt).
Proof.
  revert i. induction msgs as [|m msgs IH]; intros i Hno; [done|].
  apply not_elem_of_cons in Hno as [Hm Hno].
  destruct m as [data| |]; cbn [forward_messages message_texts omap];
    [|done|by apply IH].
  by rewrite IH.
Qed.

(** X16.  Whatever the messages and whether or not a [sendline] raises,
    the handler sends the child a leading part of the text messages, in
    order, and then always cancels the reader, terminates the child by
    force and closes the socket.  Without a failure it sends the text of
    every message that comes before the first error message, and none
    after it. *)
Theorem interactive_execute_code_teardown
    (send_failure : option (nat * exn)) (msgs : list ws_message) :
  (exists sent,
     fst (interactive_execute_code send_failure msgs) =
       map ChildSendline sent
       ++ [CancelReader; TerminateChild true; CloseSocket] /\
     sent `prefix_of` message_texts msgs)
  /\
  (forall before_error after_error,
     msgs = before_error ++ MsgError :: after_error ->
     MsgError ∉ before_error ->
     interactive_execute_code None msgs =
     (map ChildSendline (message_texts before_error)
        ++ [CancelReader; TerminateChild true; CloseSocket], Ok tt)).
Proof.
  split.
  - unfold interactive_execute_code.
    destruct (forward_messages_prefix send_failure 0 msgs) as (sent & Hs & Hp).
    destruct (forward_messages send_failure 0 msgs) as [s r].
    exists sent. cbn [fst] in *. by rewrite Hs.
  - intros before_error after_error -> Hno. unfold interactive_execute_code.
    assert (forall i,
              forward_messages None i (before_error ++ MsgError :: after_error)
              = (map ChildSendline (message_texts before_error), Ok tt)) as ->;
      [|done].
    induction before_error as [|m pre IH]; intros i; [done|].
    apply not_elem_of_cons in Hno as [Hm Hno].
    destruct m as [data| |]; cbn [app forward_messages message_texts omap];
      [|done|by apply IH].
    by rewrite IH.
Qed.

Lemma interactive_execute_code_teardown_witness :
  interactive_execute_code None
    [MsgText "x = 10"; MsgOther; MsgText "print(x)"; MsgError; MsgText "late"]
  = ([ChildSendline "x = 10"; ChildSendline "print(x)";
      CancelReader; TerminateChild true; CloseSocket], Ok tt).
Proof.
  apply (proj2 (interactive_execute_code_teardown None _)
           [MsgText "x = 10"; MsgOther; MsgText "print(x)"] [MsgText "late"]
           eq_refl).
  intros H. repeat (apply elem_of_cons in H as [H|H]; [discriminate H|]).
  by apply elem_of_nil in H.
Defined.

(** ** [judge] and exceptions *)

Section RaisesOnly.
Context {P : exn -> Prop}.










End RaisesOnly.




(** ** The write validator on any absolute root *)

(** For absolute paths the test [commonpath([p, q]) == q] holds exactly
    when [q] is written in normal form and its components lead those of
    [p]. *)
Lemma commonpath2_is_dir_any (p q : string) :
  startswith "/" p = true -> startswith "/" q = true ->
  exists c, commonpath2 p q = Ok c /\
            (String.eqb c q = true <-> normalized_absolute q /\ lies_under p q).
Proof.
  intros Hp Hq. eexists. split; [by apply commonpath2_absolute|].
  rewrite String.eqb_eq.
  set (common := common_prefix (components p) (components q)).
  assert (Forall good_component common) as Hgood
    by apply common_prefix_good, components_good.
  split.
  - intros H.
    assert (normalized_absolute q) as Hn.
    { unfold normalized_absolute. rewrite <- H at 2.
      by rewrite components_normal. }
    split; [done|].
    destruct (commonpath2_is_dir p q Hp Hn) as (c & Hc & Hiff).
    rewrite commonpath2_absolute in Hc by done. injection Hc as <-.
    apply Hiff. by apply String.eqb_eq.
  - intros [Hn Hunder].
    destruct (commonpath2_is_dir p q Hp Hn) as (c & Hc & Hiff).
    rewrite commonpath2_absolute in Hc by done. injection Hc as <-.
    by apply String.eqb_eq, Hiff.
Qed.

Lemma reports_dir_absolute (WORKSPACE_DIR : string) (i : nat) :
  startswith "/" WORKSPACE_DIR = true ->
  startswith "/" (reports_dir WORKSPACE_DIR i) = true.
Proof.
  intros H. unfold reports_dir, os_path_join. cbn [fold_left].
  by do 2 apply join_step_absolute.
Qed.

Lemma any_commonpath_any_root (path : string) (allowed : list string) :
  startswith "/" path = true ->
  Forall (fun q => startswith "/" q = true) allowed ->
  exists hit, any_commonpath path allowed = Ok hit /\
    (hit = true <->
     Exists (fun q => normalized_absolute q /\ lies_under path q) allowed).
Proof.
  intros Hp. induction 1 as [|q allowed Hq _ IH].
  - exists false. split; [done|]. split; [done|]. by intros ?%Exists_nil.
  - destruct (commonpath2_is_dir_any path q Hp Hq) as (c & Hc & Hiff).
    cbn [any_commonpath]. rewrite Hc. cbn [obind].
    destruct (String.eqb c q).
    + exists true. split; [done|]. split; [|done].
      intros _. apply Exists_cons_hd, Hiff. done.
    + destruct IH as (hit & -> & IH). exists hit. split; [done|].
      rewrite IH, Exists_cons. split; [by right|].
      intros [H|H]; [|done]. by apply Hiff in H.
Qed.

Lemma validate_write_path_any_root (WORKSPACE_DIR path : string) :
  startswith "/" WORKSPACE_DIR = true -> startswith "/" path = true ->
  exists hit, validate_write_path WORKSPACE_DIR true path = Ok hit /\
    (hit = true <->
     exists i, (1 <= i <= 50)%nat /\
       normalized_absolute (reports_dir WORKSPACE_DIR i) /\
       lies_under path (reports_dir WORKSPACE_DIR i)).
Proof.
  intros Hws Hp. unfold validate_write_path.
  assert (Forall (fun q => startswith "/" q = true)
            (allowed_paths WORKSPACE_DIR)) as Habs.
  { unfold allowed_paths. apply Forall_forall. intros q Hq.
    apply list_elem_of_fmap in Hq as (i & -> & _).
    by apply reports_dir_absolute. }
  destruct (any_commonpath_any_root path _ Hp Habs) as (hit & -> & Hhit).
  exists hit. split; [by destruct hit|].
  rewrite Hhit, Exists_exists. unfold allowed_paths. split.
  - intros (q & Hq & Hn & Hunder).
    apply list_elem_of_fmap in Hq as (i & -> & Hi).
    exists i. split; [apply elem_of_seq in Hi; lia|done].
  - intros (i & Hi & Hn & Hunder).
    exists (reports_dir WORKSPACE_DIR i). split; [|done].
    apply list_elem_of_fmap. exists i. split; [done|].
    apply elem_of_seq. lia.
Qed.

(** ** A root written with a doubled slash *)

Lemma split_char_doubled (pre post : string) :
  split_char slash (pre +:+ "//" +:+ post) =
  split_char slash pre ++ "" :: split_char slash post.
Proof.
  change ("//" +:+ post) with (String slash (String slash post)).
  by rewrite split_char_app_sep, split_char_cons, Ascii.eqb_refl.
Qed.

Lemma normalized_no_doubled_slash (d : string) :
  normalized_absolute d -> contains "//" d = false.
Proof.
  intros Hd. destruct (contains "//" d) eqn:Hc; [|done]. exfalso.
  apply contains_spec in Hc as (pre & post & Hpp).
  pose proof (components_good d) as Hgood.
  pose proof (split_char_doubled pre post) as Hsplit. rewrite <- Hpp in Hsplit.
  rewrite Hd in Hsplit. change ("/" +:+ ?s) with (String slash s) in Hsplit.
  rewrite split_char_cons, Ascii.eqb_refl in Hsplit.
  destruct (components d) as [|x l] eqn:Hcomps.
  - rewrite Hd, Hcomps in Hpp. destruct pre as [|a [|b pre]]; done.
  - rewrite split_join in Hsplit;
      [|done|by eapply Forall_impl; [exact Hgood|]; intros ? []].
    pose proof (split_char_nonempty slash pre) as Hpre.
    destruct (split_char slash pre) as [|y ys]; [done|].
    injection Hsplit as _ Hl.
    assert ("" ∈ x :: l) as Hin.
    { rewrite Hl. apply elem_of_app. right. apply elem_of_cons. by left. }
    rewrite Forall_forall in Hgood. by destruct (Hgood _ Hin).
Qed.

Lemma join_step_extends (a b : string) :
  startswith "/" b = false -> exists t, join_step a b = a +:+ t.
Proof.
  intros Hb. unfold join_step. rewrite Hb.
  destruct (_ || _); [by exists b|]. by exists ("/" +:+ b).
Qed.

Lemma reports_dir_extends (WORKSPACE_DIR : string) (i : nat) :
  i ∈ seq 1 50 -> exists t, reports_dir WORKSPACE_DIR i = WORKSPACE_DIR +:+ t.
Proof.
  intros Hi. unfold reports_dir, os_path_join. cbn [fold_left].
  destruct (join_step_extends WORKSPACE_DIR (str_of_nat i)) as [t ->].
  { by apply good_component_relative, str_of_nat_good. }
  destruct (join_step_extends (WORKSPACE_DIR +:+ t) "reports") as [t' ->];
    [done|].
  exists (t +:+ t'). by rewrite app_assoc_s.
Qed.

Lemma validate_write_path_doubled_slash (WORKSPACE_DIR path : string) :
  startswith "/" WORKSPACE_DIR = true -> contains "//" WORKSPACE_DIR = true ->
  startswith "/" path = true ->
  validate_write_path WORKSPACE_DIR true path = Ok false.
Proof.
  intros Hws Hdouble Hp.
  destruct (validate_write_path_any_root _ _ Hws Hp) as (hit & -> & Hhit).
  f_equal. destruct hit; [|done]. exfalso.
  destruct (proj1 Hhit eq_refl) as (i & Hi & Hn & _).
  apply normalized_no_doubled_slash in Hn.
  destruct (reports_dir_extends WORKSPACE_DIR i) as [t Ht];
    [apply elem_of_seq; lia|].
  apply contains_spec in Hdouble as (pre & post & Hpp).
  assert (contains "//" (reports_dir WORKSPACE_DIR i) = true) as Hc.
  { apply contains_spec. exists pre, (post +:+ t).
    by rewrite Ht, Hpp, !app_assoc_s. }
  congruence.
Qed.

(** ** [normpath] on paths with [..] *)

Lemma normpath_loop_app (k : nat) (new a b : list string) :
  normpath_loop k new (a ++ b) = normpath_loop k (normpath_loop k new a) b.
Proof.
  revert new. induction a as [|c a IH]; intros new; [done|].
  cbn [app normpath_loop]. destruct (_ || _); [apply IH|].
  destruct (_ || _); [apply IH|]. destruct (negb _); apply IH.
Qed.

(** A component that is a name is put on the stack. *)
Lemma normpath_loop_push (k : nat) (new : list string) (c : string)
    (rest : list string) :
  good_component c -> c <> ".." ->
  normpath_loop k new (c :: rest) = normpath_loop k (new ++ [c]) rest.
Proof.
  intros [Hkeep _] Hc. cbn [normpath_loop].
  apply andb_true_iff in Hkeep as [Hne Hdot].
  apply negb_true_iff in Hdot. rewrite Hdot.
  assert (String.eqb c "" = false) as -> by (by destruct c).
  apply String.eqb_neq in Hc. by rewrite Hc.
Qed.

(** In an absolute path [..] takes the last name off the stack, and
    does nothing at the root. *)
Lemma normpath_loop_dotdot (new rest : list string) :
  Forall (fun c => c <> "..") new ->
  normpath_loop 1 new (".." :: rest) = normpath_loop 1 (removelast new) rest.
Proof.
  intros Hnew. cbn [normpath_loop].
  change (String.eqb ".." "" || String.eqb ".." ".") with false.
  change (negb (String.eqb ".." "..")) with false.
  change (1 =? 0)%nat with false. cbn [andb orb].
  destruct (decide (new = [])) as [->|Hne]; [done|].
  rewrite bool_decide_eq_false_2 by done. cbn [negb andb].
  destruct (exists_last Hne) as (new' & c & ->).
  rewrite last_last.
  apply Forall_app in Hnew as [_ Hc]. inversion Hc as [|? ? Hc' _]; subst.
  apply String.eqb_neq in Hc'. by rewrite Hc'.
Qed.

Lemma length_removelast_le {A} (l : list A) :
  (length (removelast l) <= length l - 1)%nat.
Proof.
  induction l as [|x l IH]; [done|]. cbn [removelast].
  destruct l; [done|]. cbn [length] in *. lia.
Qed.

(** The stack of an absolute path never holds [..]. *)
Lemma normpath_loop_names (new comps : list string) :
  Forall (fun c => c <> "..") new ->
  Forall (fun c => c <> "..") (normpath_loop 1 new comps)
  /\ (length (normpath_loop 1 new comps) <= length new + length comps)%nat.
Proof.
  revert new. induction comps as [|c comps IH]; intros new Hnew.
  { split; [done|]. cbn [normpath_loop length]. lia. }
  destruct (decide (c = "..")) as [->|Hc].
  - rewrite normpath_loop_dotdot by done.
    destruct (IH (removelast new)) as [Hclean Hlen];
      [by apply Forall_removelast|].
    split; [done|]. pose proof (length_removelast_le new).
    cbn [length]. lia.
  - cbn [normpath_loop]. destruct (_ || _).
    + destruct (IH new Hnew) as [Hclean Hlen]. split; [done|].
      cbn [length]. lia.
    + apply String.eqb_neq in Hc. rewrite Hc. cbn [negb orb].
      destruct (IH (new ++ [c])) as [Hclean Hlen].
      { apply Forall_app. split; [done|]. constructor; [|done].
        by apply String.eqb_neq. }
      split; [done|]. rewrite length_app in Hlen. cbn [length] in *. lia.
Qed.

(** Enough steps to the parent lead back to the root. *)
Lemma normpath_loop_pop (n : nat) (new rest : list string) :
  Forall (fun c => c <> "..") new -> (length new <= n)%nat ->
  normpath_loop 1 new (replicate n ".." ++ rest) = normpath_loop 1 [] rest.
Proof.
  revert new. induction n as [|n IH]; intros new Hnew Hlen.
  - destruct new; [done|cbn [length] in Hlen; lia].
  - cbn [replicate app]. rewrite normpath_loop_dotdot by done.
    apply IH; [by apply Forall_removelast|].
    pose proof (length_removelast_le new). lia.
Qed.

(** A path without [..] keeps its components. *)
Lemma normpath_loop_plain (k : nat) (new comps : list string) :
  ".." ∉ comps ->
  normpath_loop k new comps =
  new ++ filter (fun c => keep_component c = true) comps.
Proof.
  revert new. induction comps as [|c comps IH]; intros new Hno.
  { by rewrite app_nil_r. }
  apply not_elem_of_cons in Hno as [Hc Hno].
  cbn [normpath_loop]. unfold keep_component at 1.
  destruct (String.eqb_spec c "") as [->|Hempty].
  { rewrite filter_cons_False by (by cbv). by apply IH. }
  destruct (String.eqb_spec c ".") as [->|Hdot].
  { rewrite filter_cons_False by (by cbv). by apply IH. }
  cbn [orb]. apply not_eq_sym, String.eqb_neq in Hc.
  rewrite Hc. cbn [negb orb].
  rewrite filter_cons_True.
  2:{ unfold keep_component. apply andb_true_iff.
      split; [by destruct c|]. by apply negb_true_iff, String.eqb_neq. }
  rewrite IH by done. by rewrite <- (assoc_L (++)).
Qed.

Lemma normalized_single_slash (p : string) :
  normalized_absolute p ->
  startswith "/" p = true /\ startswith "//" p = false.
Proof.
  intros Hp. pose proof (components_good p) as Hgood.
  rewrite Hp. split; [apply (startswith_app "/")|].
  destruct (components p) as [|x l]; [done|].
  inversion Hgood as [|? ? Hx _]; subst.
  pose proof (good_component_relative _ Hx) as Hrel.
  pose proof (good_component_nonempty _ Hx) as Hne.
  destruct x as [|a x]; [done|].
  rewrite startswith_slash_cons in Hrel.
  destruct l as [|y l].
  - change ("/" +:+ join "/" [String a x]) with (String slash (String a x)).
    by rewrite startswith_slashes_cons, Hrel.
  - rewrite join_cons2.
    change ("/" +:+ String a x +:+ ?t) with (String slash (String a (x +:+ t))).
    by rewrite startswith_slashes_cons, Hrel.
Qed.

(** [normpath] of an absolute path in normal form runs the loop over its
    components. *)
Lemma normpath_normalized_loop (p : string) :
  normalized_absolute p ->
  normpath p = "/" +:+ join "/" (normpath_loop 1 [] (components p)).
Proof.
  intros Hp. destruct (normalized_single_slash p Hp) as [Habs Hsingle].
  pose proof (components_good p) as Hgood.
  unfold normpath. rewrite Habs, Hsingle.
  assert (truthy p = true) as -> by (by destruct p).
  cbn [negb andb].
  assert (normpath_loop 1 [] (split_char slash p) =
          normpath_loop 1 [] (components p)) as ->.
  { unfold normalized_absolute in Hp. rewrite Hp at 1. change ("/" +:+ ?s) with (String slash s).
    rewrite split_char_cons, Ascii.eqb_refl.
    destruct (components p) as [|x l] eqn:Hc; [done|].
    rewrite split_join; [done|done|].
    by eapply Forall_impl; [exact Hgood|]; intros ? []. }
  done.
Qed.

(** ** Paths that leave the report directories *)

Lemma join_app (sep : string) (l1 l2 : list string) :
  l1 <> [] -> l2 <> [] ->
  join sep (l1 ++ l2) = join sep l1 +:+ sep +:+ join sep l2.
Proof.
  intros Hl1 Hl2. induction l1 as [|x l1 IH]; [done|].
  destruct l1 as [|z l1].
  - destruct l2 as [|y l2]; [done|]. apply join_cons2.
  - change ((x :: z :: l1) ++ l2) with (x :: z :: (l1 ++ l2)).
    rewrite !join_cons2. change (z :: l1 ++ l2) with ((z :: l1) ++ l2).
    rewrite IH by done. by rewrite !app_assoc_s.
Qed.

Lemma join_dotdots (n : nat) :
  join "/" (replicate n ".." ++ ["etc"; "passwd"]) = dotdots n +:+ "etc/passwd".
Proof.
  induction n as [|n IH]; [done|].
  change (replicate (S n) ".." ++ ["etc"; "passwd"])
    with ([".."] ++ (replicate n ".." ++ ["etc"; "passwd"])).
  rewrite join_app; [|done|by destruct n]. rewrite IH.
  cbn [dotdots join]. by rewrite !app_assoc_s.
Qed.

Lemma str_of_nat_name (i : nat) : i ∈ seq 1 50 -> str_of_nat i <> "..".
Proof.
  intros Hi.
  assert (Forall (fun i => str_of_nat i <> "..") (seq 1 50)) as H.
  { apply Forall_forall. intros j Hj. apply list_elem_of_In in Hj.
    repeat (destruct Hj as [<-|Hj]; [by vm_compute|]). done. }
  rewrite Forall_forall in H. by apply H.
Qed.

Section Escape.
Variable WORKSPACE_DIR : string.
Hypothesis workspace_normal : normalized_absolute WORKSPACE_DIR.

Lemma escape_components_good (i : nat) :
  i ∈ seq 1 50 -> Forall good_component (escape_components WORKSPACE_DIR i).
Proof.
  intros Hi. unfold escape_components.
  apply Forall_app. split; [apply Forall_app; split|apply Forall_app; split].
  - apply components_good.
  - constructor; [by apply str_of_nat_good|].
    constructor; [apply reports_good|constructor].
  - by apply Forall_replicate.
  - by repeat constructor.
Qed.

Lemma escape_path_normal (i : nat) :
  i ∈ seq 1 50 ->
  escape_path WORKSPACE_DIR i =
  "/" +:+ join "/" (escape_components WORKSPACE_DIR i).
Proof.
  intros Hi. unfold escape_path, escape_components, reports_dir.
  rewrite (allowed_path_normal _ workspace_normal) by done.
  rewrite (join_app "/" (components WORKSPACE_DIR ++ [str_of_nat i; "reports"]))
    by (by intros [_ [=]]%app_eq_nil).
  by rewrite join_dotdots, !app_assoc_s.
Qed.

Lemma escape_path_normalized (i : nat) :
  i ∈ seq 1 50 ->
  normalized_absolute (escape_path WORKSPACE_DIR i)
  /\ components (escape_path WORKSPACE_DIR i) =
     escape_components WORKSPACE_DIR i.
Proof.
  intros Hi.
  assert (components (escape_path WORKSPACE_DIR i) =
          escape_components WORKSPACE_DIR i) as Hc.
  { rewrite escape_path_normal by done.
    by apply components_normal, escape_components_good. }
  split; [|done]. unfold normalized_absolute. rewrite Hc.
  by apply escape_path_normal.
Qed.

(** Followed step by step, the path names [/etc/passwd]. *)
Lemma escape_path_normpath (i : nat) :
  i ∈ seq 1 50 -> normpath (escape_path WORKSPACE_DIR i) = "/etc/passwd".
Proof.
  intros Hi. destruct (escape_path_normalized i Hi) as [Hn Hc].
  rewrite (normpath_normalized_loop _ Hn), Hc. unfold escape_components.
  rewrite normpath_loop_app.
  destruct (normpath_loop_names []
              (components WORKSPACE_DIR ++ [str_of_nat i; "reports"]))
    as [Hnames Hlen]; [done|].
  rewrite normpath_loop_pop; [done|done|].
  rewrite length_app in Hlen. cbn [length] in Hlen. lia.
Qed.

(** Followed step by step, a report directory still ends in its number
    and [reports]. *)
Lemma reports_dir_normpath (j : nat) :
  j ∈ seq 1 50 ->
  exists names,
    components (normpath (reports_dir WORKSPACE_DIR j)) =
    names ++ [str_of_nat j; "reports"].
Proof.
  intros Hj. unfold reports_dir.
  rewrite (normpath_normalized_loop _
             (allowed_path_normalized _ workspace_normal j Hj)).
  rewrite (allowed_path_components _ workspace_normal) by done.
  rewrite normpath_loop_app.
  set (names := normpath_loop 1 [] (components WORKSPACE_DIR)).
  assert (Forall good_component names) as Hgood.
  { apply normpath_loop_good; [done|].
    eapply Forall_impl; [apply components_good|]. by intros ? []. }
  rewrite normpath_loop_push
    by (by apply str_of_nat_good || by apply str_of_nat_name).
  rewrite normpath_loop_push by (apply reports_good || done).
  cbn [normpath_loop]. exists names.
  rewrite <- (assoc_L (++)). cbn [app]. apply components_normal.
  apply Forall_app. split; [done|].
  constructor; [by apply str_of_nat_good|].
  constructor; [apply reports_good|constructor].
Qed.

Lemma escape_path_outside (i j : nat) :
  i ∈ seq 1 50 -> j ∈ seq 1 50 ->
  ~ resolves_under (escape_path WORKSPACE_DIR i) (reports_dir WORKSPACE_DIR j).
Proof.
  intros Hi Hj [_ Hpre]. rewrite escape_path_normpath in Hpre by done.
  destruct (reports_dir_normpath j Hj) as [names Hnames].
  rewrite Hnames in Hpre.
  change (components "/etc/passwd") with ["etc"; "passwd"] in Hpre.
  pose proof (prefix_length _ _ Hpre) as Hlen.
  rewrite length_app in Hlen. cbn [length] in Hlen.
  destruct names; [|cbn [length] in Hlen; lia].
  cbn [app] in Hpre.
  apply prefix_cons_inv_2, prefix_cons_inv_1 in Hpre. discriminate Hpre.
Qed.

(** Whatever is written after an allowed directory and a slash, the
    path is accepted. *)
Lemma validate_write_path_below_reports (i : nat) (rest : string) :
  i ∈ seq 1 50 ->
  validate_write_path WORKSPACE_DIR true
    (reports_dir WORKSPACE_DIR i +:+ "/" +:+ rest) = Ok true.
Proof.
  intros Hi.
  pose proof (workspace_absolute _ workspace_normal) as Hws.
  assert (startswith "/" (reports_dir WORKSPACE_DIR i +:+ "/" +:+ rest) = true)
    as Hp by by apply startswith_app_l, reports_dir_absolute.
  destruct (validate_write_path_any_root _ _ Hws Hp) as (hit & -> & Hhit).
  f_equal. apply Hhit. exists i. split; [apply elem_of_seq in Hi; lia|].
  split; [by apply allowed_path_normalized|]. split; [done|].
  change ("/" +:+ rest) with (String slash rest).
  rewrite components_app_sep. by apply prefix_app_r.
Qed.

End Escape.

(** A path without [..] names the file its components spell. *)
Lemma normpath_plain (p : string) :
  startswith "/" p = true -> ".." ∉ components p ->
  startswith "/" (normpath p) = true /\ components (normpath p) = components p.
Proof.
  intros Hp Hno. unfold normpath.
  assert (truthy p = true) as -> by (by destruct p).
  rewrite Hp. cbn [negb]. cbv zeta.
  assert (".." ∉ split_char slash p) as Hsplit.
  { intros Hin. apply Hno. unfold components.
    apply list_elem_of_filter. by split. }
  rewrite normpath_loop_plain by done. cbn [app]. fold (components p).
  pose proof (components_good p) as Hgood.
  destruct (startswith "//" p && negb (startswith "///" p)).
  - change (slashes 2 +:+ ?s) with (String slash ("/" +:+ s)).
    cbn [truthy]. split; [done|].
    by rewrite components_slash, components_normal.
  - change (slashes 1 +:+ ?s) with (String slash s).
    cbn [truthy]. split; [done|].
    change (String slash ?s) with ("/" +:+ s). by rewrite components_normal.
Qed.

(** For a path without [..], to begin with a directory as written is to
    name a file under it. *)
Lemma lies_under_resolves (p dir : string) :
  ".." ∉ components p -> lies_under p dir -> startswith "/" dir = true ->
  resolves_under p dir.
Proof.
  intros Hno [Hp Hpre] Hdir.
  assert (".." ∉ components dir) as Hno_dir.
  { intros Hin. apply Hno. destruct Hpre as [k ->].
    apply elem_of_app. by left. }
  destruct (normpath_plain p Hp Hno) as [Habs Hc].
  destruct (normpath_plain dir Hdir Hno_dir) as [_ Hc_dir].
  split; [done|]. by rewrite Hc, Hc_dir.
Qed.

(** With a root in normal form the validator accepts what is written
    under a report directory and refuses what is written beside it. *)
Lemma validate_write_path_examples (WORKSPACE_DIR : string) :
  normalized_absolute WORKSPACE_DIR ->
  validate_write_path WORKSPACE_DIR true
    (reports_dir WORKSPACE_DIR 7 +:+ "/round1.jsonl") = Ok true
  /\ validate_write_path WORKSPACE_DIR true
       (os_path_join WORKSPACE_DIR ["7"; "src"; "main.py"]) = Ok false.
Proof.
  intros Hnormal.
  pose proof (workspace_absolute _ Hnormal) as Hws.
  assert (7%nat ∈ seq 1 50) as H7 by (apply elem_of_seq; lia).
  split; [by apply (validate_write_path_below_reports _ Hnormal 7 "round1.jsonl")|].
  set (path := os_path_join WORKSPACE_DIR ["7"; "src"; "main.py"]).
  assert (path = "/" +:+ join "/" (components WORKSPACE_DIR ++ ["7"; "src"; "main.py"]))
    as Hpath.
  { unfold path, os_path_join. cbn [fold_left].
    unfold normalized_absolute in Hnormal. rewrite Hnormal at 1.
    pose proof (components_good WORKSPACE_DIR) as Hgood.
    rewrite !join_step_normal; try done.
    - by rewrite <- !(assoc_L (++)).
    - apply Forall_app. split; [|by repeat constructor].
      apply Forall_app. split; [done|by repeat constructor].
    - apply Forall_app. split; [done|by repeat constructor]. }
  assert (startswith "/" path = true) as Hp
    by (rewrite Hpath; apply (startswith_app "/")).
  destruct (validate_write_path_any_root _ _ Hws Hp) as (hit & -> & Hhit).
  f_equal. destruct hit; [|done]. exfalso.
  destruct (proj1 Hhit eq_refl) as (i & Hi & _ & _ & Hpre).
  assert (i ∈ seq 1 50) as Hi' by (apply elem_of_seq; lia).
  unfold reports_dir in Hpre.
  rewrite (allowed_path_components _ Hnormal) in Hpre by done.
  rewrite Hpath, components_normal in Hpre.
  - apply prefix_app_inv in Hpre.
    apply prefix_cons_inv_2, prefix_cons_inv_1 in Hpre. done.
  - apply Forall_app. split; [apply components_good|by repeat constructor].
Qed.

(** C5.  [validate_write_path] tests the path as it is written, not the
    file it names.  For an absolute root it answers true exactly when
    some [{WORKSPACE_DIR}/{i}/reports], [i] from 1 to 50, is written in
    normal form and its components are the leading components of the
    path, [..] counted as a component like any other.  So, with a root in
    normal form, the path that starts with [{WORKSPACE_DIR}/{i}/reports]
    and climbs through [..] to [/etc/passwd] is accepted, although the
    file it names lies under none of the report directories; and with a
    root written with a doubled slash every absolute path is refused,
    [{WORKSPACE_DIR}/7/reports/round1.jsonl] among them. *)
Theorem validate_write_path_accepts_escape (WORKSPACE_DIR : string) :
  startswith "/" WORKSPACE_DIR = true ->
  (forall path, startswith "/" path = true ->
     exists hit, validate_write_path WORKSPACE_DIR true path = Ok hit /\
       (hit = true <->
        exists i, (1 <= i <= 50)%nat /\
          normalized_absolute (reports_dir WORKSPACE_DIR i) /\
          lies_under path (reports_dir WORKSPACE_DIR i)))
  /\ (normalized_absolute WORKSPACE_DIR ->
      forall i, (1 <= i <= 50)%nat ->
        validate_write_path WORKSPACE_DIR true (escape_path WORKSPACE_DIR i)
          = Ok true /\
        normpath (escape_path WORKSPACE_DIR i) = "/etc/passwd" /\
        forall j, (1 <= j <= 50)%nat ->
          ~ resolves_under (escape_path WORKSPACE_DIR i)
              (reports_dir WORKSPACE_DIR j))
  /\ (contains "//" WORKSPACE_DIR = true ->
      forall path, startswith "/" path = true ->
        validate_write_path WORKSPACE_DIR true path = Ok false).
Proof.
  intros Hws. split; [|split].
  - intros path Hp. by apply validate_write_path_any_root.
  - intros Hnormal i Hi.
    assert (i ∈ seq 1 50) as Hi' by (apply elem_of_seq; lia).
    split; [|split].
    + unfold escape_path. by apply validate_write_path_below_reports.
    + by apply escape_path_normpath.
    + intros j Hj. apply escape_path_outside; [done..|].
      apply elem_of_seq. lia.
  - intros Hdouble path Hp. by apply validate_write_path_doubled_slash.
Qed.

Lemma validate_write_path_accepts_escape_witness :
  validate_write_path BASE_WORKSPACE_DIR true
    "/tmp/code_agent_workspace/7/reports/../../../../etc/passwd" = Ok true /\
  normpath "/tmp/code_agent_workspace/7/reports/../../../../etc/passwd"
    = "/etc/passwd" /\
  validate_write_path "/srv//ws" true "/srv//ws/7/reports/round1.jsonl"
    = Ok false.
Proof.
  assert (normalized_absolute BASE_WORKSPACE_DIR) as Hnormal by reflexivity.
  destruct (validate_write_path_accepts_escape BASE_WORKSPACE_DIR eq_refl)
    as (_ & Hescape & _).
  destruct (Hescape Hnormal 7%nat ltac:(lia)) as (Haccepted & Hnames & _).
  destruct (validate_write_path_accepts_escape "/srv//ws" eq_refl)
    as (_ & _ & Hdoubled).
  split; [exact Haccepted|]. split; [exact Hnames|].
  exact (Hdoubled eq_refl "/srv//ws/7/reports/round1.jsonl" eq_refl).
Defined.

(** C6.  The path validators are not total and do not fail closed.  With
    path restriction on and an absolute root, [validate_write_path]
    raises [ValueError] for every relative path, where it returns a
    boolean for every absolute one.  [validate_read_file_path] returns
    true, not false, for every relative path and every path that starts
    with [/tmp]; for any other path an exception of [Path.resolve()]
    leaves it as it is, where [validate_path] of the file server answers
    false; and when both paths resolve it returns a boolean, false
    exactly when the resolved path starts with neither the resolved
    workspace nor [/tmp]. *)
Theorem validators_do_not_fail_closed
    (WORKSPACE_DIR : string) (resolve : string -> outcome string) :
  startswith "/" WORKSPACE_DIR = true ->
  (forall path, startswith "/" path = false ->
     validate_write_path WORKSPACE_DIR true path =
     Raise (mkExn ValueError "Can't mix absolute and relative paths"))
  /\ (forall path, startswith "/" path = true ->
        exists hit, validate_write_path WORKSPACE_DIR true path = Ok hit)
  /\ (forall path,
        startswith "/" path = false \/ startswith "/tmp" path = true ->
        validate_read_file_path WORKSPACE_DIR resolve path = Ok true)
  /\ (forall path e,
        startswith "/" path = true -> startswith "/tmp" path = false ->
        resolve WORKSPACE_DIR = Raise e \/
        (exists workspace_path, resolve WORKSPACE_DIR = Ok workspace_path) /\
        resolve path = Raise e ->
        validate_read_file_path WORKSPACE_DIR resolve path = Raise e /\
        validate_path WORKSPACE_DIR resolve path = false)
  /\ (forall path workspace_path file_path_resolved,
        resolve WORKSPACE_DIR = Ok workspace_path ->
        resolve path = Ok file_path_resolved ->
        exists ok, validate_read_file_path WORKSPACE_DIR resolve path = Ok ok /\
          (ok = false <->
           startswith "/" path = true /\ startswith "/tmp" path = false /\
           startswith workspace_path file_path_resolved = false /\
           startswith "/tmp" file_path_resolved = false)).
Proof.
  intros Hws. split; [|split; [|split; [|split]]].
  - intros path Hp. by apply validate_write_path_relative_raises.
  - intros path Hp.
    destruct (validate_write_path_any_root _ _ Hws Hp) as (hit & Hv & _).
    by exists hit.
  - intros path [Hrel|Htmp]; unfold validate_read_file_path.
    + destruct (startswith "/tmp" path); [done|]. by rewrite Hrel.
    + by rewrite Htmp.
  - intros path e Hp Htmp Hfail.
    unfold validate_read_file_path, validate_path.
    rewrite Htmp, Hp. cbv [negb SANDBOX_MODE].
    destruct Hfail as [Hw|[[workspace_path Hw] Hpath]]; rewrite Hw.
    + split; [done|]. by destruct (resolve path).
    + by rewrite Hpath.
  - intros path workspace_path file_path_resolved Hw Hp.
    unfold validate_read_file_path.
    destruct (startswith "/tmp" path) eqn:E1.
    { exists true. split; [done|]. split; [done|]. by intros (_ & ? & _). }
    destruct (startswith "/" path) eqn:E2; cbv [negb SANDBOX_MODE].
    2:{ exists true. split; [done|]. split; [done|]. by intros (? & _). }
    rewrite Hw, Hp. cbv [obind].
    destruct (startswith workspace_path file_path_resolved) eqn:E3; cbv [orb].
    { exists true. split; [done|]. split; [done|]. by intros (_ & _ & ? & _). }
    destruct (startswith "/tmp" file_path_resolved) eqn:E4.
    { exists true. split; [done|]. split; [done|]. by intros (_ & _ & _ & ?). }
    exists false. done.
Qed.

Lemma validators_do_not_fail_closed_witness :
  validate_write_path BASE_WORKSPACE_DIR true "reports/round1.jsonl"
    = Raise (mkExn ValueError "Can't mix absolute and relative paths") /\
  validate_read_file_path BASE_WORKSPACE_DIR resolve_canonical
    "reports/round1.jsonl" = Ok true.
Proof.
  destruct (validators_do_not_fail_closed BASE_WORKSPACE_DIR resolve_canonical
              eq_refl) as (Hwrite & _ & Hread & _).
  split; [exact (Hwrite "reports/round1.jsonl" eq_refl)|].
  exact (Hread "reports/round1.jsonl" (or_introl eq_refl)).
Defined.

(** X2.  With path restriction on and the workspace root an absolute
    path in normal form, the only file [write_file] writes and the only
    file [delete_file] removes is the one at the path it was given, and
    only when that path, as written, begins with the components of one
    of the directories [{WORKSPACE_DIR}/{i}/reports].  When the path has
    no [..] component, the file then lies under that directory.  An
    absolute path that does not begin so is refused with no effect on
    the file system. *)
Theorem write_tools_touch_accepted_path
    (WORKSPACE_DIR : string) (fs : file_system) (path content : string) :
  normalized_absolute WORKSPACE_DIR ->
  let begins q :=
    exists i, (1 <= i <= 50)%nat /\
      lies_under q (reports_dir WORKSPACE_DIR i) in
  let under q :=
    exists i, (1 <= i <= 50)%nat /\
      resolves_under q (reports_dir WORKSPACE_DIR i) in
  (forall q c, FsWrite q c ∈ fst (write_file WORKSPACE_DIR true fs path content) ->
     q = Path_str (Path path) /\ c = content /\ begins q /\
     (".." ∉ components path -> under q))
  /\ (forall q, FsUnlink q ∈ fst (delete_file WORKSPACE_DIR true fs path) ->
        q = Path_str (Path path) /\ begins q /\
        (".." ∉ components path -> under q))
  /\ (startswith "/" path = true -> ~ begins path ->
        write_file WORKSPACE_DIR true fs path content = ([], Ok write_refused) /\
        delete_file WORKSPACE_DIR true fs path = ([], Ok delete_refused)).
Proof.
  intros Hnormal begins under.
  pose proof (workspace_absolute _ Hnormal) as Hws.
  assert (forall hit, validate_write_path WORKSPACE_DIR true path = Ok hit ->
            hit = true ->
            begins (Path_str (Path path)) /\
            (".." ∉ components path -> under (Path_str (Path path))))
    as Hbegins.
  { intros hit Hv ->.
    destruct (startswith "/" path) eqn:Hp.
    - destruct (validate_write_path_any_root _ _ Hws Hp) as (hit & Hv' & Hhit).
      rewrite Hv in Hv'. injection Hv' as <-.
      destruct (proj1 Hhit eq_refl) as (i & Hi & _ & _ & Hpre).
      destruct (Path_str_absolute path Hp) as [Habs Hcomps].
      assert (lies_under (Path_str (Path path)) (reports_dir WORKSPACE_DIR i))
        as Hlies by (split; [done|by rewrite Hcomps]).
      split; [by exists i|]. intros Hno. exists i. split; [done|].
      apply lies_under_resolves; [by rewrite Hcomps|done|].
      by apply reports_dir_absolute.
    - by rewrite validate_write_path_relative_raises in Hv. }
  split; [|split].
  - intros q c. unfold write_file.
    destruct (validate_write_path WORKSPACE_DIR true path) as [[|]|e] eqn:Hv;
      cbn [fst]; [|by intros ?%elem_of_nil..].
    destruct (fs_mkdir fs _); cbn [fst].
    + intros H%list_elem_of_singleton. done.
    + intros H. apply elem_of_cons in H as [H|H]; [done|].
      apply list_elem_of_singleton in H. injection H as -> ->.
      split; [done|]. split; [done|]. by eapply Hbegins.
  - intros q. unfold delete_file.
    destruct (validate_write_path WORKSPACE_DIR true path) as [[|]|e] eqn:Hv;
      cbn [fst]; [|by intros ?%elem_of_nil..].
    destruct (fs_exists fs _) as [[|]|e]; cbn [fst];
      [|by intros ?%elem_of_nil..].
    intros H%list_elem_of_singleton. injection H as ->.
    split; [done|]. by eapply Hbegins.
  - intros Hp Hnot.
    destruct (validate_write_path_any_root _ _ Hws Hp) as (hit & Hv & Hhit).
    unfold write_file, delete_file. rewrite Hv.
    destruct hit; [|done]. destruct Hnot.
    destruct (proj1 Hhit eq_refl) as (i & Hi & _ & Hunder). by exists i.
Qed.

Lemma write_tools_touch_accepted_path_witness :
  write_file BASE_WORKSPACE_DIR true (fs_all "") "/etc/passwd" "root::0:0" =
  ([], Ok write_refused).
Proof.
  assert (normalized_absolute BASE_WORKSPACE_DIR) as Hws by reflexivity.
  apply (proj2 (proj2 (write_tools_touch_accepted_path BASE_WORKSPACE_DIR
                         (fs_all "") "/etc/passwd" "root::0:0" Hws)));
    [reflexivity|].
  intros (i & Hi & _ & Hpre).
  assert (i ∈ seq 1 50) as Hi' by (apply elem_of_seq; lia).
  unfold reports_dir in Hpre.
  rewrite (allowed_path_components _ Hws) in Hpre by done.
  change (components BASE_WORKSPACE_DIR) with ["tmp"; "code_agent_workspace"] in Hpre.
  change (components "/etc/passwd") with ["etc"; "passwd"] in Hpre.
  apply prefix_cons_inv_1 in Hpre. discriminate Hpre.
Defined.

(** X18.  With the workspace root an absolute path in normal form,
    [validate_write_path] accepts every path that starts with a
    directory [{WORKSPACE_DIR}/{i}/reports] and a slash, whatever
    follows, and [write_file] goes on to create the parent directory and
    to write the file at the path as given: [pathlib] keeps [..] too.
    With enough [..] after the directory the file written is
    [/etc/passwd]. *)
Theorem write_validator_keeps_dotdot
    (WORKSPACE_DIR : string) (fs : file_system) (i : nat)
    (rest content : string) :
  normalized_absolute WORKSPACE_DIR -> (1 <= i <= 50)%nat ->
  let path := reports_dir WORKSPACE_DIR i +:+ "/" +:+ rest in
  validate_write_path WORKSPACE_DIR true path = Ok true /\
  (fs_mkdir fs (Path_str (Path_parent (Path path))) = None ->
   fst (write_file WORKSPACE_DIR true fs path content) =
   [FsMkdir (Path_str (Path_parent (Path path)));
    FsWrite (Path_str (Path path)) content]) /\
  (rest = dotdots (length (components WORKSPACE_DIR) + 2) +:+ "etc/passwd" ->
   Path_str (Path path) = path /\ normpath path = "/etc/passwd").
Proof.
  intros Hnormal Hi path.
  assert (i ∈ seq 1 50) as Hi' by (apply elem_of_seq; lia).
  assert (validate_write_path WORKSPACE_DIR true path = Ok true) as Hv
    by by apply validate_write_path_below_reports.
  split; [done|]. split.
  - intros Hmkdir. unfold write_file. fold path. by rewrite Hv, Hmkdir.
  - intros Hrest. assert (path = escape_path WORKSPACE_DIR i) as ->.
    { unfold path, escape_path. by rewrite Hrest. }
    split; [|by apply escape_path_normpath].
    destruct (escape_path_normalized _ Hnormal i Hi') as [Hn Hc].
    destruct (normalized_single_slash _ Hn) as [Habs Hsingle].
    unfold Path_str, Path. cbn [pp_root pp_parts].
    rewrite Hsingle, Habs. cbn [andb]. symmetry. exact Hn.
Qed.

Lemma write_validator_keeps_dotdot_witness :
  fst (write_file BASE_WORKSPACE_DIR true (fs_all "")
         "/tmp/code_agent_workspace/7/reports/../../../../etc/passwd"
         "root::0:0") =
  [FsMkdir "/tmp/code_agent_workspace/7/reports/../../../../etc";
   FsWrite "/tmp/code_agent_workspace/7/reports/../../../../etc/passwd"
     "root::0:0"] /\
  normpath "/tmp/code_agent_workspace/7/reports/../../../../etc/passwd"
    = "/etc/passwd".
Proof.
  assert (normalized_absolute BASE_WORKSPACE_DIR) as Hws by reflexivity.
  destruct (write_validator_keeps_dotdot BASE_WORKSPACE_DIR (fs_all "") 7
              "../../../../etc/passwd" "root::0:0" Hws ltac:(lia))
    as (_ & Hwritten & Hnames).
  split; [exact (Hwritten eq_refl)|]. exact (proj2 (Hnames eq_refl)).
Defined.
